(** * The BitmapAnd executor node

    A shallow embedding of [src/backend/executor/nodeBitmapAnd.c]:
    [ExecInitBitmapAnd], [MultiExecBitmapAnd] and [ExecReScanBitmapAnd],
    followed by the properties of the node that the specification states.

    The C code works on heap objects through pointers: the running result
    bitmap is handed to the VA index scan through [biss_result], the scan
    clause of the plan is written through [adamScanClause], and
    [tbm_intersect] updates its first argument in place.  The embedding
    therefore keeps an explicit store of bitmaps and scan clauses, and the
    body of [MultiExecBitmapAnd] is written in a state-and-error monad
    over that store. *)

From stdpp Require Import base option list gmap sets strings.
From Stdlib Require Import ZArith Lia.

Set Default Proof Using "Type".

Open Scope Z_scope.
Open Scope nat_scope.

(** ** Data model *)

Definition Oid := Z.

(** Addresses of heap objects (the value of a non-NULL pointer). *)
Definition loc := positive.

(** A tuple identifier, the element type of a [TIDBitmap]. *)
Definition ItemPointer := Z.

(** [Bitmapset *]: a set of parameter numbers; [None] is the NULL pointer,
    which is what the code tests for. *)
Definition Bitmapset := gset nat.

(** Identity of a [Plan] node ([PlanState.plan]); the node-kind dispatchers
    [ExecInitNode] and [MultiExecProcNode] are keyed on it. *)
Definition Plan := nat.

(** The node tags this file looks at, and two more for contrast. *)
Inductive NodeTag :=
  | T_Invalid
  | T_BitmapAndState
  | T_BitmapOrState
  | T_BitmapIndexScanState
  | T_TIDBitmap.

#[global] Instance NodeTag_eq_dec : EqDecision NodeTag.
Proof. solve_decision. Defined.

(** [IsA(nodeptr, _type_)] on the tag stored in the node header. *)
Definition IsA (tag : NodeTag) (_type_ : NodeTag) : bool :=
  bool_decide (tag = _type_).

(** [AdamScanClause]: the two fields [MultiExecBitmapAnd] writes. *)
Record AdamScanClause := mkAdamScanClause {
  check_tid : bool;
  nn_limit : Z
}.

#[global] Instance AdamScanClause_eq_dec : EqDecision AdamScanClause.
Proof. solve_decision. Defined.

(** [RelationData], reduced to [rd_rel->relam]. *)
Record RelationData := mkRelationData {
  relam : Oid
}.

(** A child node.  [type], [plan] and [chgParam] are the [PlanState]
    header; the remaining fields are those of [BitmapIndexScanState] and
    are looked at only after [IsA(subnode, BitmapIndexScanState)]. *)
Record PlanState := mkPlanState {
  type : NodeTag;
  plan : Plan;
  chgParam : option Bitmapset;
  biss_result : option loc;
  biss_RelationDesc : option RelationData;
  adamScanClause : option loc
}.

Definition set_biss_result (v : option loc) (s : PlanState) : PlanState :=
  {| type := type s; plan := plan s; chgParam := chgParam s;
     biss_result := v;
     biss_RelationDesc := biss_RelationDesc s;
     adamScanClause := adamScanClause s |}.

Definition set_adamScanClause (v : option loc) (s : PlanState) : PlanState :=
  {| type := type s; plan := plan s; chgParam := chgParam s;
     biss_result := biss_result s;
     biss_RelationDesc := biss_RelationDesc s;
     adamScanClause := v |}.

Definition set_chgParam (v : option Bitmapset) (s : PlanState) : PlanState :=
  {| type := type s; plan := plan s; chgParam := v;
     biss_result := biss_result s;
     biss_RelationDesc := biss_RelationDesc s;
     adamScanClause := adamScanClause s |}.

Definition set_check_tid (b : bool) (c : AdamScanClause) : AdamScanClause :=
  {| check_tid := b; nn_limit := nn_limit c |}.

Definition set_nn_limit (z : Z) (c : AdamScanClause) : AdamScanClause :=
  {| check_tid := check_tid c; nn_limit := z |}.

(** The [BitmapAnd] plan node: the [adamPlanClause] pointer of its [Plan]
    header and the list of child plans (the C field is also called
    [bitmapplans]). *)
Record BitmapAnd := mkBitmapAnd {
  adamPlanClause : option loc;
  plan_bitmapplans : list Plan
}.

(** [BitmapAndState].  [nplans] is not stored: [ExecInitBitmapAnd] sets it
    to the length of the array and nothing changes either afterwards. *)
Record BitmapAndState := mkBitmapAndState {
  ps_plan : BitmapAnd;
  ps_chgParam : option Bitmapset;
  bitmapplans : list PlanState;
  limit : Z
}.

Definition nplans (node : BitmapAndState) : nat := length (bitmapplans node).

(** A [Node *]: NULL, or the address of an object whose header carries
    [tag]. *)
Inductive NodePtr :=
  | NULL
  | NodeAt (tag : NodeTag) (l : loc).

(** The store: the live [TIDBitmap]s, each with the set of tuple
    identifiers it holds, and the live [AdamScanClause]s. *)
Record Mem := mkMem {
  bitmaps : gmap loc (gset ItemPointer);
  clauses : gmap loc AdamScanClause
}.

(** What one call of [MultiExecBitmapAnd] works on: the store, the
    [bitmapplans] array, and the positions handed to [MultiExecProcNode] so
    far, oldest first (a ghost field that records which children ran). *)
Record XState := mkXState {
  mem : Mem;
  plans : list PlanState;
  executed : list nat
}.

(** ** Errors and the execution monad *)

Inductive error :=
  | ERROR (msg : string)     (* elog(ERROR, msg) *)
  | AssertFailure            (* a failed Assert() *)
  | SEGV.                    (* access through a dangling or NULL pointer *)

Inductive res (A : Type) :=
  | Ok (a : A)
  | Err (e : error).
Arguments Ok {A} a.
Arguments Err {A} e.

(** The store survives an error: [elog(ERROR)] leaves by [longjmp] and
    undoes none of the writes made before it. *)
Definition M (A : Type) : Type := XState → res A * XState.

Definition ret {A} (a : A) : M A := λ s, (Ok a, s).

Definition bind {A B} (m : M A) (f : A → M B) : M B := λ s,
  match m s with
  | (Ok a, s') => f a s'
  | (Err e, s') => (Err e, s')
  end.

Notation "'do' x <- m ; k" := (bind m (λ x, k))
  (at level 10, x name, m at level 100, k at level 200).
Notation "'do' ' p <- m ; k" := (bind m (λ x, match x with p => k end))
  (at level 10, p pattern, m at level 100, k at level 200).
Notation "'run' m ; k" := (bind m (λ _, k))
  (at level 10, m at level 100, k at level 200).

Definition raise {A} (e : error) : M A := λ s, (Err e, s).

Definition elog {A} (msg : string) : M A := raise (ERROR msg).

Definition with_mem (m : Mem) (s : XState) : XState :=
  {| mem := m; plans := plans s; executed := executed s |}.

Definition with_bitmaps (h : gmap loc (gset ItemPointer)) (m : Mem) : Mem :=
  {| bitmaps := h; clauses := clauses m |}.

Definition with_clauses (h : gmap loc AdamScanClause) (m : Mem) : Mem :=
  {| bitmaps := bitmaps m; clauses := h |}.

(** *** The TIDBitmap primitives

    [tidbitmap.c] is not part of the source at hand.  The specification
    describes the candidate set as an opaque set of row identifiers with
    [create(capacityHint)], [intersect(mutA, b)], [isEmpty(a)] and
    [release(a)]; a bitmap is modelled as the set of its members, and the
    use of a bitmap that is not live as an invalid access. *)

(** Modelled from the spec: the allocation behind [create], which is
    missing with [tidbitmap.c]; a new bitmap gets an address that is not
    in use. *)
Definition tbm_alloc (tids : gset ItemPointer) (m : Mem) : loc * Mem :=
  let a := fresh (dom (bitmaps m)) in
  (a, with_bitmaps (<[a := tids]> (bitmaps m)) m).

(** Modelled from the spec: [tbm_create] of the missing [tidbitmap.c] is
    [create(capacityHint)], a new empty set; the hint has no bearing on
    the members. *)
Definition tbm_create (maxbytes : Z) : M loc := λ s,
  let '(a, m) := tbm_alloc ∅ (mem s) in (Ok a, with_mem m s).

(** Modelled from the spec: [tbm_intersect] of the missing [tidbitmap.c]
    is [intersect(mutA, b)]; [a] is updated in place, [b] is only read. *)
Definition tbm_intersect (a b : loc) : M unit := λ s,
  match bitmaps (mem s) !! a, bitmaps (mem s) !! b with
  | Some A, Some B =>
      (Ok (), with_mem (with_bitmaps (<[a := A ∩ B]> (bitmaps (mem s))) (mem s)) s)
  | _, _ => (Err SEGV, s)
  end.

(** Modelled from the spec: [tbm_free] of the missing [tidbitmap.c] is
    [release(a)]; the bitmap is no longer live afterwards. *)
Definition tbm_free (b : loc) : M unit := λ s,
  match bitmaps (mem s) !! b with
  | Some _ => (Ok (), with_mem (with_bitmaps (delete b (bitmaps (mem s))) (mem s)) s)
  | None => (Err SEGV, s)
  end.

(** Modelled from the spec: [tbm_is_empty] of the missing [tidbitmap.c] is
    [isEmpty(a)]. *)
Definition tbm_is_empty (a : loc) : M bool := λ s,
  match bitmaps (mem s) !! a with
  | Some A => (Ok (bool_decide (A = ∅)), s)
  | None => (Err SEGV, s)
  end.

(** *** Access to the array and to a scan clause *)

(** [bitmapplans[i]] *)
Definition get_subnode (i : nat) : M PlanState := λ s,
  match plans s !! i with
  | Some subnode => (Ok subnode, s)
  | None => (Err SEGV, s)
  end.

(** A write to a field of the node [bitmapplans[i]] points to. *)
Definition update_subnode (i : nat) (f : PlanState → PlanState) : M unit := λ s,
  match plans s !! i with
  | Some subnode =>
      (Ok (), {| mem := mem s; plans := <[i := f subnode]> (plans s);
                 executed := executed s |})
  | None => (Err SEGV, s)
  end.

(** A write to a field of the clause [p] points to. *)
Definition update_clause (p : loc) (f : AdamScanClause → AdamScanClause) : M unit := λ s,
  match clauses (mem s) !! p with
  | Some c => (Ok (), with_mem (with_clauses (<[p := f c]> (clauses (mem s))) (mem s)) s)
  | None => (Err SEGV, s)
  end.

(** ** Concrete children for the examples

    A table-driven stand-in for [MultiExecProcNode]: the child with plan
    [p] returns a new bitmap holding [tbl p], or NULL when the table has no
    entry.  A scan that was given a clause with [check_tid] set and a
    result sink first filters its tuples against the sink. *)

Definition demo_filter (subnode : PlanState) (m : Mem) (tids : gset ItemPointer)
  : gset ItemPointer :=
  match adamScanClause subnode ≫= (λ p, clauses m !! p),
        biss_result subnode ≫= (λ r, bitmaps m !! r) with
  | Some c, Some sink => if check_tid c then tids ∩ sink else tids
  | _, _ => tids
  end.

Definition demo_exec (tbl : Plan → option (gset ItemPointer))
    (subnode : PlanState) (m : Mem) : PlanState * Mem * NodePtr :=
  match tbl (plan subnode) with
  | Some tids =>
      let '(a, m') := tbm_alloc (demo_filter subnode m tids) m in
      (subnode, m', NodeAt T_TIDBitmap a)
  | None => (subnode, m, NULL)
  end.

(** A second stand-in, after the stock bitmap index scan: a scan that was
    given a result sink adds its tuples to the sink, resets [biss_result]
    and hands the sink back; without a sink it behaves as [demo_exec]. *)
Definition demo_exec_into_sink (tbl : Plan → option (gset ItemPointer))
    (subnode : PlanState) (m : Mem) : PlanState * Mem * NodePtr :=
  match tbl (plan subnode), biss_result subnode with
  | Some tids, Some r =>
      match bitmaps m !! r with
      | Some sink =>
          (set_biss_result None subnode,
           with_bitmaps (<[r := sink ∪ tids]> (bitmaps m)) m,
           NodeAt T_TIDBitmap r)
      | None => (subnode, m, NULL)
      end
  | _, _ => demo_exec tbl subnode m
  end.

(** A third stand-in: a scan that was given a result sink adds its tuples
    to the sink and also returns them in a new bitmap of its own; without
    a sink it behaves as [demo_exec]. *)
Definition demo_exec_fill_sink (tbl : Plan → option (gset ItemPointer))
    (subnode : PlanState) (m : Mem) : PlanState * Mem * NodePtr :=
  match tbl (plan subnode), biss_result subnode with
  | Some tids, Some r =>
      match bitmaps m !! r with
      | Some sink =>
          let '(a, m') := tbm_alloc tids (with_bitmaps (<[r := sink ∪ tids]> (bitmaps m)) m) in
          (subnode, m', NodeAt T_TIDBitmap a)
      | None => (subnode, m, NULL)
      end
  | _, _ => demo_exec tbl subnode m
  end.

(** The OID used for the VA access method in the examples, and the B-tree
    OID for the ordinary scans. *)
Definition demo_VA_AM_OID : Oid := 4000%Z.
Definition demo_BTREE_AM_OID : Oid := 403%Z.

Definition plain (p : Plan) : PlanState :=
  {| type := T_BitmapIndexScanState; plan := p; chgParam := None;
     biss_result := None;
     biss_RelationDesc := Some {| relam := demo_BTREE_AM_OID |};
     adamScanClause := None |}.

Definition probe (p : Plan) : PlanState :=
  {| type := T_BitmapIndexScanState; plan := p; chgParam := None;
     biss_result := None;
     biss_RelationDesc := Some {| relam := demo_VA_AM_OID |};
     adamScanClause := None |}.

(** Plans 1 to 3 are the sets of the specification's scenarios 1 and 2,
    plans 4 and 5 are used for similarity probes, 6 is a second non-empty
    set, and no other plan returns a bitmap. *)
Definition demo_tbl (p : Plan) : option (gset ItemPointer) :=
  match p with
  | 1 => Some {[1; 3; 5; 7]}%Z
  | 2 => Some {[3; 5; 9]}%Z
  | 3 => Some ∅
  | 4 => Some {[2; 4; 6; 8]}%Z
  | 5 => Some {[4; 8]}%Z
  | 6 => Some {[2; 4; 6]}%Z
  | _ => None
  end.

Definition demo_init (initNode : Plan) (eflags : Z) : PlanState :=
  if bool_decide (initNode = 4 ∨ initNode = 5) then probe initNode else plain initNode.

(** One scan clause lives at address 1; no bitmap exists yet. *)
Definition demo_mem : Mem :=
  {| bitmaps := ∅;
     clauses := {[ 1%positive := {| check_tid := false; nn_limit := 0%Z |} ]} |}.

Definition demo_node (clause : option loc) (children : list PlanState) : BitmapAndState :=
  {| ps_plan := {| adamPlanClause := clause; plan_bitmapplans := plan <$> children |};
     ps_chgParam := None;
     bitmapplans := children;
     limit := 10%Z |}.

(** A table with an answer for every plan. *)
Definition demo_tbl_total (p : Plan) : option (gset ItemPointer) :=
  Some (default ∅ (demo_tbl p)).

(** The set a child of the examples produces. *)
Definition demo_out (c : PlanState) : gset ItemPointer := default ∅ (demo_tbl (plan c)).

(** Stand-ins for [UpdateChangedParamSet] and [ExecReScan]: only the
    children with an odd plan number depend on the parameters, and a rescan
    clears the pending set and the result sink. *)
Definition demo_UpdateChangedParamSet (subnode : PlanState) (newchg : Bitmapset) : PlanState :=
  if Nat.odd (plan subnode)
  then set_chgParam (Some (default ∅ (chgParam subnode) ∪ newchg)) subnode
  else subnode.

Definition demo_ExecReScan (subnode : PlanState) : PlanState :=
  set_biss_result None (set_chgParam None subnode).

Definition demo_rescan_node : BitmapAndState :=
  {| ps_plan := {| adamPlanClause := None; plan_bitmapplans := [1; 2] |};
     ps_chgParam := Some {[7]};
     bitmapplans := [plain 1; plain 2];
     limit := 10%Z |}.

(** ** The node *)

Section BitmapAnd.

(** Constants and collaborators that live outside [nodeBitmapAnd.c]. *)

(** The access-method OID of the VA index ([VA_AM_OID]). *)
Variable VA_AM_OID : Oid.

(** The [work_mem] setting, in kilobytes. *)
Variable work_mem : Z.

(** [EXEC_FLAG_BACKWARD] and [EXEC_FLAG_MARK] of [executor.h]. *)
Variables EXEC_FLAG_BACKWARD EXEC_FLAG_MARK : Z.

(** [USE_ASSERT_CHECKING]: whether the build compiles the [Assert] macro
    in.  Without it [Assert(...)] expands to nothing. *)
Variable USE_ASSERT_CHECKING : bool.

(** [ExecInitNode(plan, estate, eflags)]: the state node built for a child
    plan; the executor state is the same for all calls and is left out. *)
Variable ExecInitNode : Plan → Z → PlanState.

(** [MultiExecProcNode(subnode)]: runs a child.  It sees the child node and
    the store, may change both, and returns a [Node *]. *)
Variable MultiExecProcNode : PlanState → Mem → PlanState * Mem * NodePtr.

(** [UpdateChangedParamSet(subnode, newchg)] and [ExecReScan(subnode)]. *)
Variable UpdateChangedParamSet : PlanState → Bitmapset → PlanState.
Variable ExecReScan : PlanState → PlanState.

(** *** ExecInitBitmapAnd *)

(** The assertion is checked in a build with [USE_ASSERT_CHECKING] only;
    in any other build the flags are passed on to the children unchecked.
    [makeNode] zeroes the node, so the fields the function does not set,
    [chgParam] and [limit], start as NULL and 0. *)
Definition ExecInitBitmapAnd (node : BitmapAnd) (eflags : Z) : res BitmapAndState :=
  (* Assert(!(eflags & (EXEC_FLAG_BACKWARD | EXEC_FLAG_MARK))) *)
  if USE_ASSERT_CHECKING
     && negb (Z.land eflags (Z.lor EXEC_FLAG_BACKWARD EXEC_FLAG_MARK) =? 0)%Z
  then Err AssertFailure
  else
    Ok {| ps_plan := node;
          ps_chgParam := None;
          bitmapplans := (λ initNode, ExecInitNode initNode eflags) <$> plan_bitmapplans node;
          limit := 0 |}.

(** *** MultiExecBitmapAnd *)

(** [scanState && scanState->biss_RelationDesc &&
     scanState->biss_RelationDesc->rd_rel->relam == VA_AM_OID];
    [scanState] is the child itself and is never NULL here. *)
Definition uses_VA_index (scanState : PlanState) : bool :=
  match biss_RelationDesc scanState with
  | Some rel => (relam rel =? VA_AM_OID)%Z
  | None => false
  end.

(** Both loops recognise the ADAM plan by the node tag and the index. *)
Definition is_ADAM_scan (subnode : PlanState) : bool :=
  IsA (type subnode) T_BitmapIndexScanState && uses_VA_index subnode.

(** [tmp = a[nplans - 1]; a[nplans - 1] = a[i]; a[i] = tmp].  The loop
    body runs only when [nplans >= 1], so the subtraction on [nat] is the
    one of the code, and both slots exist. *)
Definition swap_with_last (a : list PlanState) (i : nat) : list PlanState :=
  match a !! (length a - 1), a !! i with
  | Some tmp, Some subnode => <[i := tmp]> (<[length a - 1 := subnode]> a)
  | _, _ => a
  end.

(** The body of the first loop at index [i]. *)
Definition reorder_step (a : list PlanState) (i : nat) : list PlanState :=
  match a !! i with
  | Some subnode =>
      if IsA (type subnode) T_BitmapIndexScanState && negb (i =? length a - 1)
      then if uses_VA_index subnode then swap_with_last a i else a
      else a
  | None => a
  end.

(** The first loop: [for (i = 0; i < nplans; i++)]. *)
Definition reorder_pass (a : list PlanState) : list PlanState :=
  foldl reorder_step a (seq 0 (length a)).

(** [subresult = MultiExecProcNode(subnode)] for [subnode = bitmapplans[i]],
    recording that position [i] ran. *)
Definition exec_subnode (i : nat) : M NodePtr := λ s,
  match plans s !! i with
  | Some subnode =>
      let '(subnode', m', r) := MultiExecProcNode subnode (mem s) in
      (Ok r, {| mem := m'; plans := <[i := subnode']> (plans s);
                executed := executed s ++ [i] |})
  | None => (Err SEGV, s)
  end.

(** The block under "ADAM" once the child is known to be a VA index scan.
    Returns the new value of [result] and of [no_intersect]. *)
Definition setup_ADAM_scan (node : BitmapAndState) (i : nat) (result : option loc)
  : M (option loc * bool) :=
  do result <- match result with
               | None => do a <- tbm_create (work_mem * 1024)%Z; ret (Some a)
               | Some _ => ret result
               end;
  run update_subnode i (set_biss_result result);
  run update_subnode i (set_adamScanClause (adamPlanClause (ps_plan node)));
  match adamPlanClause (ps_plan node) with
  | Some adamScanClause =>
      run update_clause adamScanClause (set_check_tid true);
      run (if negb (i =? 0)
           then update_clause adamScanClause (set_nn_limit (limit node))
           else run update_clause adamScanClause (set_nn_limit (-1)%Z);
                update_clause adamScanClause (set_check_tid false));
      ret (result, true)
  | None => ret (result, false)
  end.

(** The part of one turn of the second loop that comes before the child is
    run: fetch [bitmapplans[i]] and, for a VA index scan, configure it.
    [no_intersect] starts each turn as [false]. *)
Definition prepare_subnode (node : BitmapAndState) (i : nat) (result : option loc)
  : M (option loc * bool) :=
  do subnode <- get_subnode i;
  if is_ADAM_scan subnode
  then setup_ADAM_scan node i result
  else ret (result, false).

(** The part after the child has run: the check of what it returned, and
    the adoption of or intersection with its bitmap.  The value returned is
    the new [result], which is never NULL. *)
Definition merge_subresult (result : option loc) (no_intersect : bool) (subresult : NodePtr)
  : M loc :=
  match subresult with
  | NULL => elog "unrecognized result from subplan"
  | NodeAt tag sub =>
      if negb (IsA tag T_TIDBitmap)
      then elog "unrecognized result from subplan"
      else
        match result with
        | None => ret sub                        (* first subplan *)
        | Some r =>
            if no_intersect then ret sub
            else run tbm_intersect r sub; run tbm_free sub; ret r
        end
  end.

(** One turn of the second loop, up to but excluding the test for an empty
    result. *)
Definition and_step (node : BitmapAndState) (i : nat) (result : option loc) : M loc :=
  do '(result, no_intersect) <- prepare_subnode node i result;
  do subresult <- exec_subnode i;
  merge_subresult result no_intersect subresult.

(** The second loop with [n] turns left, entered at index [i]. *)
Fixpoint and_loop (node : BitmapAndState) (n : nat) (i : nat) (result : option loc)
  : M (option loc) :=
  match n with
  | 0 => ret result
  | S n' =>
      do r <- and_step node i result;
      do empty <- tbm_is_empty r;
      if empty : bool then ret (Some r)         (* break *)
      else and_loop node n' (S i) (Some r)
  end.

(** [MultiExecBitmapAnd] from the second loop on.  The calls to the
    instrumentation touch neither the store nor the array and are left
    out. *)
Definition MultiExecBitmapAnd_body (node : BitmapAndState) : M loc :=
  do result <- and_loop node (nplans node) 0 None;
  match result with
  | None => elog "BitmapAnd doesn't support zero inputs"
  | Some r => ret r
  end.

(** The state in which the second loop starts: the array as the first loop
    leaves it, and no child run yet. *)
Definition start_state (node : BitmapAndState) (m : Mem) : XState :=
  {| mem := m; plans := reorder_pass (bitmapplans node); executed := [] |}.

(** The whole of [MultiExecBitmapAnd], called in the store [m]: the outcome
    (the bitmap returned, or the error) and the state the call leaves. *)
Definition MultiExecBitmapAnd (node : BitmapAndState) (m : Mem) : res loc * XState :=
  MultiExecBitmapAnd_body node (start_state node m).

(** The rest of a turn after its [and_step]: the test for an empty result,
    and the remaining [n] turns from index [i] on. *)
Definition test_empty_and_go_on (node : BitmapAndState) (n i : nat) (r : loc)
  : M (option loc) :=
  do empty <- tbm_is_empty r;
  if empty : bool then ret (Some r) else and_loop node n i (Some r).

(** [loop_reaches node s0 i result s]: started in [s0], the second loop
    comes to the head of turn [i] with the local [result] and the state
    [s].  It goes on to the next turn only after a turn that succeeded and
    left a bitmap that is not empty. *)
Inductive loop_reaches (node : BitmapAndState) (s0 : XState)
  : nat → option loc → XState → Prop :=
  | reaches_start : loop_reaches node s0 0 None s0
  | reaches_next i result s r s' :
      loop_reaches node s0 i result s →
      and_step node i result s = (Ok r, s') →
      tbm_is_empty r s' = (Ok false, s') →
      loop_reaches node s0 (S i) (Some r) s'.

(** *** ExecReScanBitmapAnd *)

(** [if (node->ps.chgParam != NULL)
      UpdateChangedParamSet(subnode, node->ps.chgParam);] *)
Definition signal_chgParam (node : BitmapAndState) (subnode : PlanState) : PlanState :=
  match ps_chgParam node with
  | Some chg => UpdateChangedParamSet subnode chg
  | None => subnode
  end.

(** One turn of the loop; the second component lists the positions on which
    [ExecReScan] was called. *)
Definition rescan_step (node : BitmapAndState) (st : list PlanState * list nat) (i : nat)
  : list PlanState * list nat :=
  let '(a, rescanned) := st in
  match a !! i with
  | Some subnode =>
      let subnode := signal_chgParam node subnode in
      match chgParam subnode with
      | None => (<[i := ExecReScan subnode]> a, rescanned ++ [i])
      | Some _ => (<[i := subnode]> a, rescanned)
      end
  | None => st
  end.

Definition ExecReScanBitmapAnd (node : BitmapAndState) : list PlanState * list nat :=
  foldl (rescan_step node) (bitmapplans node, []) (seq 0 (nplans node)).

(** *** ExecEndBitmapAnd *)

(** The array as [ExecEndBitmapAnd] may find it: [palloc0] leaves NULL in
    every slot that [ExecInitNode] has not filled, so an entry is a child
    or NULL ([None]).  One turn of the loop,
    [if (bitmapplans[i]) ExecEndNode(bitmapplans[i])]; the list holds the
    positions on which [ExecEndNode] was called, oldest first. *)
Definition end_step (a : list (option PlanState)) (ended : list nat) (i : nat) : list nat :=
  match a !! i with
  | Some (Some subnode) => ended ++ [i]
  | Some None => ended
  | None => ended
  end.

Definition ExecEndBitmapAnd (a : list (option PlanState)) : list nat :=
  foldl (end_step a) [] (seq 0 (length a)).


(** ** Notions used in the statements

    None of what follows is in the C file: these are the predicates the
    properties of the node are stated with. *)

(** *** Contracts of the children

    What a child does when it is run is not this file's business; the
    properties below are stated for children that keep to the contract the
    specification gives them. *)

(** [subresult] is something the loop rejects. *)
Definition unrecognized (subresult : NodePtr) : Prop :=
  match subresult with
  | NULL => True
  | NodeAt tag _ => tag ≠ T_TIDBitmap
  end.

(** Whatever the store, the child returns a bitmap of its own that holds
    [tids], and changes nothing else in the store. *)
Definition produces (c : PlanState) (tids : gset ItemPointer) : Prop :=
  ∀ m, ∃ c' a,
    bitmaps m !! a = None ∧
    MultiExecProcNode c m =
      (c', {| bitmaps := <[a := tids]> (bitmaps m); clauses := clauses m |},
       NodeAt T_TIDBitmap a).

(** The same without a say on the tuples returned, which may depend on the
    store.  This is the ownership the specification gives the output of a
    child: a set of its own, handed over to the node.  A scan that hands
    back the bitmap it was given as its sink is not covered. *)
Definition returns_new_bitmap (c : PlanState) : Prop :=
  ∀ m, ∃ c' a tids,
    bitmaps m !! a = None ∧
    MultiExecProcNode c m =
      (c', {| bitmaps := <[a := tids]> (bitmaps m); clauses := clauses m |},
       NodeAt T_TIDBitmap a).


(** The bitmap handed to the scan as its result sink: the running result,
    or a new empty bitmap when there is none yet. *)
Definition sink_of (result : option loc) (s : XState) : loc :=
  match result with
  | Some r => r
  | None => fresh (dom (bitmaps (mem s)))
  end.

Definition bitmaps_with_sink (result : option loc) (s : XState) : gmap loc (gset ItemPointer) :=
  match result with
  | Some _ => bitmaps (mem s)
  | None => <[fresh (dom (bitmaps (mem s))) := ∅]> (bitmaps (mem s))
  end.

(** The clause as the loop leaves it at position [i]. *)
Definition clause_for (node : BitmapAndState) (i : nat) : AdamScanClause :=
  if i =? 0 then {| check_tid := false; nn_limit := (-1)%Z |}
  else {| check_tid := true; nn_limit := limit node |}.

(** The scan clause the plan points to, if any, is live. *)
Definition clause_valid (node : BitmapAndState) (m : Mem) : Prop :=
  ∀ p, adamPlanClause (ps_plan node) = Some p → is_Some (clauses m !! p).

(** The local [result], if not NULL, points to a live bitmap. *)
Definition result_live (result : option loc) (m : Mem) : Prop :=
  ∀ r, result = Some r → is_Some (bitmaps m !! r).

(** *** Steps that run no child

    A computation is [quiet] when it hands no child to [MultiExecProcNode]
    and keeps the array at its length; [fails_in P] bounds the errors it
    can raise. *)

Definition quiet {A} (m : M A) : Prop :=
  ∀ s, executed (m s).2 = executed s ∧ length (plans (m s).2) = length (plans s).

Definition fails_in {A} (P : error → Prop) (m : M A) : Prop :=
  ∀ s e s', m s = (Err e, s') → P e.

(** The only errors of a turn: an invalid access, or the complaint about
    what the child returned. *)
Definition step_error (e : error) : Prop :=
  e = SEGV ∨ e = ERROR "unrecognized result from subplan".

(** ** The reordering pass *)

Lemma swap_with_last_length a i : length (swap_with_last a i) = length a.
Proof.
  unfold swap_with_last.
  destruct (a !! (length a - 1)), (a !! i); by rewrite ?length_insert.
Qed.

Lemma reorder_step_length a i : length (reorder_step a i) = length a.
Proof.
  unfold reorder_step.
  destruct (a !! i); [|done].
  destruct (_ && _); [|done].
  destruct (uses_VA_index _); [apply swap_with_last_length|done].
Qed.

Lemma reorder_steps_length a idx : length (foldl reorder_step a idx) = length a.
Proof.
  revert a. induction idx as [|i idx IH]; intros a; simpl; [done|].
  by rewrite IH, reorder_step_length.
Qed.

Lemma reorder_pass_length a : length (reorder_pass a) = length a.
Proof. apply reorder_steps_length. Qed.

(** The pass leaves a child that is not a VA index scan where it is. *)
Lemma reorder_step_plain a i subnode :
  a !! i = Some subnode → is_ADAM_scan subnode = false → reorder_step a i = a.
Proof.
  unfold reorder_step, is_ADAM_scan. intros -> H.
  destruct (IsA _ _); simpl in *; [|done].
  rewrite H. by destruct (negb _).
Qed.

(** The pass never moves the child in the last slot. *)
Lemma reorder_step_last a i : i = length a - 1 → reorder_step a i = a.
Proof.
  unfold reorder_step. intros ->.
  destruct (a !! _); [|done].
  rewrite Nat.eqb_refl. simpl. by rewrite andb_false_r.
Qed.

(** A VA index scan before the last slot is exchanged with the last
    child. *)
Lemma reorder_step_probe a i subnode :
  a !! i = Some subnode → is_ADAM_scan subnode = true → i ≠ length a - 1 →
  reorder_step a i = swap_with_last a i.
Proof.
  unfold reorder_step, is_ADAM_scan. intros -> [-> ->]%andb_true_iff Hi.
  apply Nat.eqb_neq in Hi. by rewrite Hi.
Qed.

Lemma swap_with_last_app pre x mid lst :
  swap_with_last (pre ++ x :: mid ++ [lst]) (length pre) = pre ++ lst :: mid ++ [x].
Proof.
  unfold swap_with_last.
  assert (Hlen : length (pre ++ x :: mid ++ [lst]) - 1 = length pre + S (length mid)).
  { rewrite length_app. simpl. rewrite length_app. simpl. lia. }
  rewrite Hlen.
  rewrite (lookup_app_r pre) by lia.
  replace (length pre + S (length mid) - length pre) with (S (length mid)) by lia.
  simpl. rewrite (lookup_app_r mid) by lia. rewrite Nat.sub_diag. simpl.
  rewrite (lookup_app_r pre) by lia. rewrite Nat.sub_diag. simpl.
  rewrite (insert_app_r_alt pre) by lia.
  replace (length pre + S (length mid) - length pre) with (S (length mid)) by lia.
  simpl. rewrite (insert_app_r_alt mid) by lia. rewrite Nat.sub_diag. simpl.
  rewrite (insert_app_r_alt pre) by lia. rewrite Nat.sub_diag. done.
Qed.

(** Over a range of slots in which every VA index scan sits in the last
    slot, the pass does nothing. *)
Lemma reorder_steps_id a k n :
  (∀ i subnode, k ≤ i < k + n → a !! i = Some subnode →
     is_ADAM_scan subnode = true → i = length a - 1) →
  foldl reorder_step a (seq k n) = a.
Proof.
  revert k. induction n as [|n IH]; intros k H; simpl; [done|].
  assert (Hk : reorder_step a k = a).
  { destruct (a !! k) as [subnode|] eqn:Hsub.
    - destruct (is_ADAM_scan subnode) eqn:Hva.
      + apply reorder_step_last. apply (H k subnode); [lia|done..].
      + by apply (reorder_step_plain _ _ subnode).
    - unfold reorder_step. by rewrite Hsub. }
  rewrite Hk. apply IH. intros i subnode Hi. apply H. lia.
Qed.

(** What the pass does to a child list with exactly one VA index scan that
    is not in the last slot. *)
Lemma reorder_pass_single pre x mid lst :
  Forall (λ c, is_ADAM_scan c = false) (pre ++ mid ++ [lst]) →
  is_ADAM_scan x = true →
  reorder_pass (pre ++ x :: mid ++ [lst]) = pre ++ lst :: mid ++ [x].
Proof.
  intros Hplain Hx. unfold reorder_pass.
  set (a := pre ++ x :: mid ++ [lst]).
  assert (Hlen : length a = length pre + S (S (length mid))).
  { unfold a. rewrite length_app. simpl. rewrite length_app. simpl. lia. }
  rewrite Hlen.
  replace (length pre + S (S (length mid))) with (length pre + (1 + S (length mid))) by lia.
  rewrite seq_app, (seq_app 1), !foldl_app.
  change (seq (0 + length pre) 1) with [length pre]. cbn [foldl].
  apply Forall_app in Hplain as [Hpre Hrest].
  apply Forall_app in Hrest as [Hmid Hlst].
  rewrite (reorder_steps_id a 0).
  2:{ intros i subnode Hi Hsub Hva. exfalso.
      unfold a in Hsub. rewrite lookup_app_l in Hsub by lia.
      rewrite Forall_lookup in Hpre. specialize (Hpre _ _ Hsub). simpl in Hpre. congruence. }
  rewrite (reorder_step_probe a (length pre) x); [| |done|lia].
  2:{ unfold a. rewrite lookup_app_r by lia. by rewrite Nat.sub_diag. }
  unfold a. rewrite swap_with_last_app.
  apply reorder_steps_id.
  intros i subnode Hi Hsub Hva.
  rewrite length_app. simpl. rewrite length_app. simpl.
  destruct (decide (i = length pre + S (length mid))) as [->|Hne]; [lia|].
  exfalso.
  rewrite lookup_app_r in Hsub by lia.
  destruct (i - length pre) as [|j] eqn:Hj; [lia|]. simpl in Hsub.
  rewrite lookup_app_l in Hsub by lia.
  rewrite Forall_lookup in Hmid. specialize (Hmid _ _ Hsub). simpl in Hmid. congruence.
Qed.

(** A child list whose only VA index scan is already last is left as it
    is. *)
Lemma reorder_pass_probe_last pre x :
  Forall (λ c, is_ADAM_scan c = false) pre →
  reorder_pass (pre ++ [x]) = pre ++ [x].
Proof.
  intros Hpre. unfold reorder_pass. apply reorder_steps_id.
  intros i subnode Hi Hsub Hva.
  rewrite length_app in *. simpl in *.
  destruct (decide (i = length pre)) as [->|Hne]; [lia|]. exfalso.
  rewrite lookup_app_l in Hsub by lia.
  rewrite Forall_lookup in Hpre. specialize (Hpre _ _ Hsub). simpl in Hpre. congruence.
Qed.

(** A child list without a VA index scan is left as it is. *)
Lemma reorder_pass_plain a :
  Forall (λ c, is_ADAM_scan c = false) a → reorder_pass a = a.
Proof.
  intros Ha. unfold reorder_pass. apply reorder_steps_id.
  intros i subnode Hi Hsub Hva. exfalso.
  rewrite Forall_lookup in Ha. specialize (Ha _ _ Hsub). simpl in Ha. congruence.
Qed.

(** The exchange, and so the whole pass, only rearranges the children. *)
Lemma swap_with_last_perm a i : swap_with_last a i ≡ₚ a.
Proof.
  unfold swap_with_last.
  destruct (a !! (length a - 1)) as [tmp|] eqn:Hlast; [|done].
  destruct (a !! i) as [subnode|] eqn:Hsub; [|done].
  pose proof (lookup_lt_Some _ _ _ Hsub) as Hi.
  destruct (decide (i = length a - 1)) as [->|Hne].
  - rewrite list_insert_insert_eq, list_insert_id; done.
  - assert (∃ pre mid, a = pre ++ subnode :: mid ++ [tmp] ∧ length pre = i)
      as (pre & mid & -> & <-).
    { rewrite <- (take_drop_middle a i subnode Hsub) in Hlast |- *.
      assert (Hti : length (take i a) = i) by (rewrite length_take; lia).
      revert Hlast. rewrite length_app, Hti. simpl. rewrite length_drop.
      rewrite lookup_app_r by lia.
      replace (i + S (length a - S i) - 1 - length (take i a))
        with (S (length a - S i - 1)) by lia.
      simpl. intros Hlast.
      assert (Hl : last (drop (S i) a) = Some tmp).
      { rewrite last_lookup, length_drop.
        replace (pred (length a - S i)) with (length a - S i - 1) by lia. done. }
      apply last_Some in Hl as [mid ->].
      by exists (take i a), mid. }
    replace (length (pre ++ subnode :: mid ++ [tmp]) - 1)
      with (length pre + S (length mid))
      by (rewrite length_app; simpl; rewrite length_app; simpl; lia).
    rewrite (insert_app_r_alt pre) by lia.
    replace (length pre + S (length mid) - length pre) with (S (length mid)) by lia.
    simpl. rewrite (insert_app_r_alt mid) by lia. rewrite Nat.sub_diag. simpl.
    rewrite (insert_app_r_alt pre) by lia. rewrite Nat.sub_diag. simpl.
    apply Permutation_app_head.
    rewrite (Permutation_app_comm mid [subnode]), (Permutation_app_comm mid [tmp]).
    simpl. apply perm_swap.
Qed.

Lemma reorder_step_perm a i : reorder_step a i ≡ₚ a.
Proof.
  unfold reorder_step.
  destruct (a !! i); [|done].
  destruct (_ && _); [|done].
  destruct (uses_VA_index _); [apply swap_with_last_perm|done].
Qed.

Lemma reorder_pass_perm a : reorder_pass a ≡ₚ a.
Proof.
  unfold reorder_pass. generalize (seq 0 (length a)). intros idx.
  revert a. induction idx as [|i idx IH]; intros a; simpl; [done|].
  by rewrite IH, reorder_step_perm.
Qed.

(** With exactly one probe among the children, the second loop sees the
    other children, in some order, and then the probe. *)
Lemma reorder_pass_one_probe pre probe post :
  Forall (λ c, is_ADAM_scan c = false) (pre ++ post) →
  is_ADAM_scan probe = true →
  ∃ others,
    reorder_pass (pre ++ probe :: post) = others ++ [probe] ∧ others ≡ₚ pre ++ post.
Proof.
  intros Hplain Hprobe.
  destruct post as [|lst mid _] using rev_ind.
  - exists pre. rewrite app_nil_r in *. by rewrite reorder_pass_probe_last.
  - exists (pre ++ lst :: mid). rewrite reorder_pass_single by done.
    split; [by rewrite <- app_assoc|].
    apply Permutation_app_head. apply Permutation_cons_append.
Qed.

(** C5.  For a node in which exactly one child is a similarity probe (a VA
    index scan), the array on which [execute] starts its loop has the
    probe in the last slot, whatever its position in the node was, and the
    other children before it; if the probe is already last the array is
    the node's; and an [execute] on the array so left starts on the same
    array again.  The node may have any number of children, so in
    particular n > 1. *)
Theorem reorder_pass_moves_probe_last node m pre probe post :
  bitmapplans node = pre ++ probe :: post →
  Forall (λ c, is_ADAM_scan c = false) (pre ++ post) →
  is_ADAM_scan probe = true →
  ∃ others,
    others ≡ₚ pre ++ post
    ∧ plans (start_state node m) = others ++ [probe]
    ∧ last (plans (start_state node m)) = Some probe
    ∧ MultiExecBitmapAnd node m
      = MultiExecBitmapAnd_body node
          {| mem := m; plans := others ++ [probe]; executed := [] |}
    ∧ (post = [] → plans (start_state node m) = bitmapplans node)
    ∧ (∀ node' m', bitmapplans node' = plans (start_state node m) →
         plans (start_state node' m') = plans (start_state node m)).
Proof.
  intros Hkids Hplain Hprobe.
  destruct (reorder_pass_one_probe pre probe post Hplain Hprobe) as (others & Hre & Hperm).
  assert (Hstart : plans (start_state node m) = others ++ [probe]).
  { simpl. by rewrite Hkids, Hre. }
  exists others. split_and!.
  - done.
  - done.
  - rewrite Hstart. apply last_snoc.
  - unfold MultiExecBitmapAnd, start_state. by rewrite Hkids, Hre.
  - intros ->. rewrite app_nil_r in Hplain. simpl.
    rewrite Hkids. by apply reorder_pass_probe_last.
  - intros node' m' Hkids'. simpl. rewrite Hkids'. simpl. rewrite Hkids, Hre.
    apply reorder_pass_probe_last. by rewrite Hperm.
Qed.

(** C4 (amended).  For a child list with exactly one similarity probe, at a
    position other than the last, the reordering pass exchanges the probe
    with the child in the last position: the probe ends last, the child
    that was last takes the probe's old position, and every other child
    keeps its position. *)
Theorem reorder_pass_exchanges_probe_and_last pre probe mid lst :
  Forall (λ c, is_ADAM_scan c = false) (pre ++ mid ++ [lst]) →
  is_ADAM_scan probe = true →
  reorder_pass (pre ++ probe :: mid ++ [lst]) = pre ++ lst :: mid ++ [probe].
Proof. apply reorder_pass_single. Qed.

(** ** Rescan *)

(** The state in which the loop of [ExecReScanBitmapAnd] leaves a child. *)
Lemma rescan_steps node todo : ∀ done rescanned,
  ∃ idx,
    foldl (rescan_step node) (done ++ todo, rescanned) (seq (length done) (length todo))
    = (done ++ ((λ c, match chgParam (signal_chgParam node c) with
                      | None => ExecReScan (signal_chgParam node c)
                      | Some _ => signal_chgParam node c
                      end) <$> todo),
       rescanned ++ idx)
    ∧ NoDup idx
    ∧ ∀ i, i ∈ idx ↔
        length done ≤ i ∧
        ∃ c, todo !! (i - length done) = Some c ∧ chgParam (signal_chgParam node c) = None.
Proof.
  induction todo as [|c todo IH]; intros done rescanned.
  - exists []. simpl. rewrite !app_nil_r. split; [done|]. split; [constructor|].
    intros i. split; [by intros ?%elem_of_nil|]. by intros (_ & c & Hc & _).
  - cbn [length seq foldl]. unfold rescan_step at 2.
    rewrite (lookup_app_r done) by lia. rewrite Nat.sub_diag. cbn [lookup list_lookup].
    cbv zeta.
    rewrite (insert_app_r_alt done) by lia. rewrite Nat.sub_diag. cbn [insert list_insert].
    rewrite (insert_app_r_alt done) by lia. rewrite Nat.sub_diag. cbn [insert list_insert].
    remember (signal_chgParam node c) as c1 eqn:Hc1.
    destruct (chgParam c1) eqn:Hchg.
    + destruct (IH (done ++ [c1]) rescanned) as (idx & Heq & Hnd & Hidx).
      rewrite length_app in Heq, Hidx. simpl in Heq, Hidx.
      rewrite Nat.add_1_r, <- !app_assoc in Heq. simpl in Heq.
      exists idx. split; [|split; [done|]].
      * rewrite Heq. simpl. by rewrite <- Hc1, Hchg.
      * intros i. rewrite Hidx. split.
        -- intros (Hi & c' & Hc' & Hnone). split; [lia|]. exists c'. split; [|done].
           replace (i - length done) with (S (i - (length done + 1))) by lia. done.
        -- intros (Hi & c' & Hc' & Hnone).
           destruct (i - length done) as [|j] eqn:Hj.
           ++ simpl in Hc'. injection Hc' as <-. congruence.
           ++ simpl in Hc'. split; [lia|]. exists c'. split; [|done].
              by replace (i - (length done + 1)) with j by lia.
    + destruct (IH (done ++ [ExecReScan c1]) (rescanned ++ [length done]))
        as (idx & Heq & Hnd & Hidx).
      rewrite length_app in Heq, Hidx. simpl in Heq, Hidx.
      rewrite Nat.add_1_r, <- !app_assoc in Heq. simpl in Heq.
      exists (length done :: idx). split; [|split].
      * rewrite Heq. simpl. by rewrite <- Hc1, Hchg.
      * constructor; [|done]. rewrite Hidx. lia.
      * intros i. rewrite elem_of_cons, Hidx. split.
        -- intros [->|(Hi & c' & Hc' & Hnone)].
           ++ split; [lia|]. exists c. rewrite Nat.sub_diag. split; [done|congruence].
           ++ split; [lia|]. exists c'. split; [|done].
              replace (i - length done) with (S (i - (length done + 1))) by lia. done.
        -- intros (Hi & c' & Hc' & Hnone).
           destruct (i - length done) as [|j] eqn:Hj.
           ++ left. lia.
           ++ right. simpl in Hc'. split; [lia|]. exists c'. split; [|done].
              by replace (i - (length done + 1)) with j by lia.
Qed.

(** C8.  [ExecReScanBitmapAnd] hands the node's pending changed-parameter
    set, when there is one, to [UpdateChangedParamSet] on every child.  A
    child whose pending set is NULL after that (also when the node had no
    pending set) is rescanned by this call, exactly once; a child whose
    pending set is not NULL is left as the merge made it and is not
    rescanned by this call. *)
Theorem rescan_signals_then_rescans_idle_children node i subnode :
  bitmapplans node !! i = Some subnode →
  let merged := match ps_chgParam node with
                | Some chg => UpdateChangedParamSet subnode chg
                | None => subnode
                end in
  NoDup (ExecReScanBitmapAnd node).2
  ∧ (chgParam merged = None →
       (ExecReScanBitmapAnd node).1 !! i = Some (ExecReScan merged)
       ∧ i ∈ (ExecReScanBitmapAnd node).2)
  ∧ (chgParam merged ≠ None →
       (ExecReScanBitmapAnd node).1 !! i = Some merged
       ∧ i ∉ (ExecReScanBitmapAnd node).2).
Proof.
  intros Hsub merged.
  destruct (rescan_steps node (bitmapplans node) [] []) as (idx & Heq & Hnd & Hidx).
  unfold ExecReScanBitmapAnd, nplans. simpl in Heq, Hidx. rewrite Heq. simpl.
  change merged with (signal_chgParam node subnode).
  split; [done|]. split.
  - intros Hnone. split.
    + rewrite list_lookup_fmap, Hsub. simpl. by rewrite Hnone.
    + apply Hidx. split; [lia|]. exists subnode. by rewrite Nat.sub_0_r.
  - intros Hsome. split.
    + rewrite list_lookup_fmap, Hsub. simpl.
      by destruct (chgParam (signal_chgParam node subnode)).
    + rewrite Hidx. intros (_ & c & Hc & Hnone).
      rewrite Nat.sub_0_r, Hsub in Hc. injection Hc as <-. done.
Qed.

(** ** The intersection loop: what every turn does *)

(** *** Sequencing *)

Lemma bind_Ok {A B} (m : M A) (f : A → M B) s a s1 :
  m s = (Ok a, s1) → bind m f s = f a s1.
Proof. unfold bind. by intros ->. Qed.

Lemma bind_Err {A B} (m : M A) (f : A → M B) s e s1 :
  m s = (Err e, s1) → bind m f s = (Err e, s1).
Proof. unfold bind. by intros ->. Qed.

Lemma bind_Ok_inv {A B} (m : M A) (f : A → M B) s b s' :
  bind m f s = (Ok b, s') → ∃ a s1, m s = (Ok a, s1) ∧ f a s1 = (Ok b, s').
Proof.
  unfold bind. destruct (m s) as [[a|e] s1]; [|done]. intros H. by exists a, s1.
Qed.

Lemma bind_Err_inv {A B} (m : M A) (f : A → M B) s e s' :
  bind m f s = (Err e, s') →
  m s = (Err e, s') ∨ ∃ a s1, m s = (Ok a, s1) ∧ f a s1 = (Err e, s').
Proof.
  unfold bind. destruct (m s) as [[a|e1] s1]; intros H.
  - right. by exists a, s1.
  - left. by injection H as -> ->.
Qed.

(** *** Steps that run no child, and the errors of a step *)

Lemma quiet_ret {A} (a : A) : quiet (ret a).
Proof. by intros s. Qed.

Lemma quiet_raise {A} e : quiet (@raise A e).
Proof. by intros s. Qed.

Lemma quiet_bind {A B} (m : M A) (f : A → M B) :
  quiet m → (∀ a, quiet (f a)) → quiet (bind m f).
Proof.
  intros Hm Hf s. unfold bind. specialize (Hm s).
  destruct (m s) as [[a|e] s1]; simpl in *; [|done].
  destruct (Hf a s1) as [-> ->]. done.
Qed.

Lemma quiet_tbm_create z : quiet (tbm_create z).
Proof. by intros s. Qed.

Lemma quiet_tbm_intersect a b : quiet (tbm_intersect a b).
Proof. intros s. unfold tbm_intersect. by repeat case_match. Qed.

Lemma quiet_tbm_free b : quiet (tbm_free b).
Proof. intros s. unfold tbm_free. by case_match. Qed.

Lemma quiet_tbm_is_empty a : quiet (tbm_is_empty a).
Proof. intros s. unfold tbm_is_empty. by case_match. Qed.

Lemma quiet_get_subnode i : quiet (get_subnode i).
Proof. intros s. unfold get_subnode. by case_match. Qed.

Lemma quiet_update_subnode i f : quiet (update_subnode i f).
Proof.
  intros s. unfold update_subnode. case_match; simpl; [|done].
  by rewrite length_insert.
Qed.

Lemma quiet_update_clause p f : quiet (update_clause p f).
Proof. intros s. unfold update_clause. by case_match. Qed.

Create HintDb quiet.
#[local] Hint Resolve quiet_ret quiet_raise quiet_tbm_create quiet_tbm_intersect
  quiet_tbm_free quiet_tbm_is_empty quiet_get_subnode quiet_update_subnode
  quiet_update_clause : quiet.

(** Splits a [quiet] goal along the shape of the code. *)
Ltac quiet_tac :=
  repeat first
    [ progress eauto with quiet
    | apply quiet_bind; [|intros ?]
    | match goal with |- quiet (match ?x with _ => _ end) => destruct x end
    | match goal with |- quiet (if ?x then _ else _) => destruct x end ].

Lemma quiet_setup_ADAM_scan node i result : quiet (setup_ADAM_scan node i result).
Proof. unfold setup_ADAM_scan. quiet_tac. Qed.

Lemma quiet_prepare_subnode node i result : quiet (prepare_subnode node i result).
Proof.
  unfold prepare_subnode. apply quiet_bind; [apply quiet_get_subnode|].
  intros subnode. destruct (is_ADAM_scan subnode);
    [apply quiet_setup_ADAM_scan|apply quiet_ret].
Qed.

Lemma quiet_merge_subresult result no_intersect subresult :
  quiet (merge_subresult result no_intersect subresult).
Proof. unfold merge_subresult, elog. quiet_tac. Qed.

Lemma fails_in_ret {A} P (a : A) : fails_in P (ret a).
Proof. by intros s e s'. Qed.

Lemma fails_in_raise {A} (P : error → Prop) e : P e → fails_in P (@raise A e).
Proof. intros He s e' s'. unfold raise. by intros [= <- _]. Qed.

Lemma fails_in_bind {A B} P (m : M A) (f : A → M B) :
  fails_in P m → (∀ a, fails_in P (f a)) → fails_in P (bind m f).
Proof.
  intros Hm Hf s e s' [H|(a & s1 & _ & H)]%bind_Err_inv; [by eapply Hm|by eapply Hf].
Qed.

Lemma fails_in_weaken {A} (P Q : error → Prop) (m : M A) :
  (∀ e, P e → Q e) → fails_in P m → fails_in Q m.
Proof. intros HPQ Hm s e s' H. eapply HPQ, Hm, H. Qed.

Lemma segv_tbm_create z : fails_in (eq SEGV) (tbm_create z).
Proof. by intros s e s'. Qed.

Lemma segv_tbm_intersect a b : fails_in (eq SEGV) (tbm_intersect a b).
Proof. intros s e s'. unfold tbm_intersect. repeat case_match; by intros [= <- _]. Qed.

Lemma segv_tbm_free b : fails_in (eq SEGV) (tbm_free b).
Proof. intros s e s'. unfold tbm_free. case_match; by intros [= <- _]. Qed.

Lemma segv_tbm_is_empty a : fails_in (eq SEGV) (tbm_is_empty a).
Proof. intros s e s'. unfold tbm_is_empty. case_match; by intros [= <- _]. Qed.

Lemma segv_get_subnode i : fails_in (eq SEGV) (get_subnode i).
Proof. intros s e s'. unfold get_subnode. case_match; by intros [= <- _]. Qed.

Lemma segv_update_subnode i f : fails_in (eq SEGV) (update_subnode i f).
Proof. intros s e s'. unfold update_subnode. case_match; by intros [= <- _]. Qed.

Lemma segv_update_clause p f : fails_in (eq SEGV) (update_clause p f).
Proof. intros s e s'. unfold update_clause. case_match; by intros [= <- _]. Qed.

Lemma segv_exec_subnode i : fails_in (eq SEGV) (exec_subnode i).
Proof.
  intros s e s'. unfold exec_subnode. case_match; [|by intros [= <- _]].
  by destruct (MultiExecProcNode _ _) as [[? ?] ?].
Qed.

Create HintDb segv.
#[local] Hint Resolve fails_in_ret segv_tbm_create segv_tbm_intersect segv_tbm_free
  segv_tbm_is_empty segv_get_subnode segv_update_subnode segv_update_clause
  segv_exec_subnode : segv.

Ltac segv_tac :=
  repeat first
    [ progress eauto with segv
    | apply fails_in_bind; [|intros ?]
    | match goal with |- fails_in _ (match ?x with _ => _ end) => destruct x end
    | match goal with |- fails_in _ (if ?x then _ else _) => destruct x end ].

Lemma segv_prepare_subnode node i result :
  fails_in (eq SEGV) (prepare_subnode node i result).
Proof. unfold prepare_subnode, setup_ADAM_scan. segv_tac. Qed.

Lemma step_error_merge_subresult result no_intersect subresult :
  fails_in step_error (merge_subresult result no_intersect subresult).
Proof.
  unfold merge_subresult, elog.
  destruct subresult as [|tag sub]; [apply fails_in_raise; by right|].
  destruct (negb _); [apply fails_in_raise; by right|].
  apply (fails_in_weaken (eq SEGV)); [intros e <-; by left|]. segv_tac.
Qed.

Lemma step_error_and_step node i result : fails_in step_error (and_step node i result).
Proof.
  unfold and_step. apply fails_in_bind.
  - apply (fails_in_weaken (eq SEGV)); [intros e <-; by left|apply segv_prepare_subnode].
  - intros [result' no_intersect]. apply fails_in_bind.
    + apply (fails_in_weaken (eq SEGV)); [intros e <-; by left|apply segv_exec_subnode].
    + intros subresult. apply step_error_merge_subresult.
Qed.

(** A turn that succeeds has run the child in slot [i] and no other. *)
Lemma and_step_Ok_executed node i result s r s' :
  and_step node i result s = (Ok r, s') →
  executed s' = executed s ++ [i] ∧ length (plans s') = length (plans s).
Proof.
  unfold and_step.
  intros ([result' no_intersect] & s1 & Hprep & H)%bind_Ok_inv.
  apply bind_Ok_inv in H as (subresult & s2 & Hexec & Hmerge).
  destruct (quiet_prepare_subnode node i result s) as [He1 Hl1].
  rewrite Hprep in He1, Hl1. simpl in He1, Hl1.
  destruct (quiet_merge_subresult result' no_intersect subresult s2) as [He3 Hl3].
  rewrite Hmerge in He3, Hl3. simpl in He3, Hl3.
  unfold exec_subnode in Hexec.
  destruct (plans s1 !! i) as [subnode|]; [|done].
  destruct (MultiExecProcNode subnode (mem s1)) as [[subnode' m'] out].
  injection Hexec as <- <-. simpl in *.
  rewrite length_insert in Hl3. split; congruence.
Qed.

(** *** The turn of a VA index scan *)

Lemma setup_ADAM_scan_clause node i result s c p c0 :
  plans s !! i = Some c →
  adamPlanClause (ps_plan node) = Some p →
  clauses (mem s) !! p = Some c0 →
  setup_ADAM_scan node i result s =
    (Ok (Some (sink_of result s), true),
     {| mem := {| bitmaps := bitmaps_with_sink result s;
                  clauses := <[p := clause_for node i]> (clauses (mem s)) |};
        plans := <[i := set_adamScanClause (Some p)
                          (set_biss_result (Some (sink_of result s)) c)]> (plans s);
        executed := executed s |}).
Proof.
  intros Hc Hp Hc0. unfold setup_ADAM_scan. rewrite Hp.
  assert (Hlt : i < length (plans s)) by (by eapply lookup_lt_Some).
  unfold clause_for.
  destruct result as [r|], (i =? 0);
    unfold bind, ret, tbm_create, tbm_alloc, update_subnode, update_clause,
      with_mem, with_bitmaps, with_clauses; simpl;
    rewrite ?Hc; simpl;
    rewrite ?list_lookup_insert_eq by done; simpl;
    rewrite ?Hc0; simpl;
    rewrite ?lookup_insert_eq; simpl;
    rewrite ?lookup_insert_eq; simpl;
    by rewrite ?list_insert_insert_eq, ?insert_insert_eq.
Qed.

Lemma setup_ADAM_scan_no_clause node i result s c :
  plans s !! i = Some c →
  adamPlanClause (ps_plan node) = None →
  setup_ADAM_scan node i result s =
    (Ok (Some (sink_of result s), false),
     {| mem := {| bitmaps := bitmaps_with_sink result s; clauses := clauses (mem s) |};
        plans := <[i := set_adamScanClause None
                          (set_biss_result (Some (sink_of result s)) c)]> (plans s);
        executed := executed s |}).
Proof.
  intros Hc Hp. unfold setup_ADAM_scan. rewrite Hp.
  assert (Hlt : i < length (plans s)) by (by eapply lookup_lt_Some).
  destruct result as [r|];
    unfold bind, ret, tbm_create, tbm_alloc, update_subnode,
      with_mem, with_bitmaps; simpl;
    rewrite ?Hc; simpl;
    rewrite ?list_lookup_insert_eq by done; simpl;
    rewrite ?list_insert_insert_eq; try done.
  by destruct s as [[] ? ?].
Qed.

(** *** The pieces of a turn *)

Lemma and_loop_S node n i result :
  and_loop node (S n) i result
  = bind (and_step node i result) (test_empty_and_go_on node n (S i)).
Proof. done. Qed.

Lemma prepare_plain node i result s c :
  plans s !! i = Some c → is_ADAM_scan c = false →
  prepare_subnode node i result s = (Ok (result, false), s).
Proof. intros Hc Hva. unfold prepare_subnode, bind, get_subnode. by rewrite Hc, Hva. Qed.

Lemma prepare_ADAM node i result s c :
  plans s !! i = Some c → is_ADAM_scan c = true →
  prepare_subnode node i result s = setup_ADAM_scan node i result s.
Proof. intros Hc Hva. unfold prepare_subnode, bind, get_subnode. by rewrite Hc, Hva. Qed.

Lemma exec_subnode_eq i s c c' m' out :
  plans s !! i = Some c → MultiExecProcNode c (mem s) = (c', m', out) →
  exec_subnode i s
  = (Ok out, {| mem := m'; plans := <[i := c']> (plans s); executed := executed s ++ [i] |}).
Proof. intros Hc Hrun. unfold exec_subnode. by rewrite Hc, Hrun. Qed.

Lemma merge_unrecognized result no_intersect subresult s :
  unrecognized subresult →
  merge_subresult result no_intersect subresult s
  = (Err (ERROR "unrecognized result from subplan"), s).
Proof.
  destruct subresult as [|tag sub]; [done|]. simpl. intros Htag.
  unfold IsA. by rewrite bool_decide_eq_false_2.
Qed.

Lemma merge_first no_intersect sub s :
  merge_subresult None no_intersect (NodeAt T_TIDBitmap sub) s = (Ok sub, s).
Proof. done. Qed.

Lemma merge_substitute r sub s :
  merge_subresult (Some r) true (NodeAt T_TIDBitmap sub) s = (Ok sub, s).
Proof. done. Qed.

Lemma merge_intersect r sub s A B :
  bitmaps (mem s) !! r = Some A → bitmaps (mem s) !! sub = Some B →
  merge_subresult (Some r) false (NodeAt T_TIDBitmap sub) s
  = (Ok r, {| mem := {| bitmaps := delete sub (<[r := A ∩ B]> (bitmaps (mem s)));
                        clauses := clauses (mem s) |};
              plans := plans s; executed := executed s |}).
Proof.
  intros Hr Hsub. simpl. unfold bind, tbm_intersect, tbm_free. rewrite Hr, Hsub. simpl.
  destruct (decide (r = sub)) as [->|Hne].
  - by rewrite lookup_insert_eq.
  - by rewrite lookup_insert_ne, Hsub.
Qed.

(** The turn of an ordinary child when there is no result yet: its bitmap
    becomes the result. *)
Lemma and_step_plain_first node i s c tids :
  plans s !! i = Some c → is_ADAM_scan c = false → produces c tids →
  ∃ c' a, bitmaps (mem s) !! a = None ∧
    and_step node i None s
    = (Ok a, {| mem := {| bitmaps := <[a := tids]> (bitmaps (mem s));
                          clauses := clauses (mem s) |};
                plans := <[i := c']> (plans s);
                executed := executed s ++ [i] |}).
Proof.
  intros Hc Hva Hprod. destruct (Hprod (mem s)) as (c' & a & Hfresh & Hrun).
  exists c', a. split; [done|]. unfold and_step.
  rewrite (bind_Ok _ _ _ _ _ (prepare_plain node i None s c Hc Hva)).
  rewrite (bind_Ok _ _ _ _ _ (exec_subnode_eq i s c _ _ _ Hc Hrun)).
  done.
Qed.

(** The turn of an ordinary child when there is a result: the result is
    intersected in place and the child's bitmap is freed. *)
Lemma and_step_plain_intersect node i s c tids r A :
  plans s !! i = Some c → is_ADAM_scan c = false → produces c tids →
  bitmaps (mem s) !! r = Some A →
  ∃ c',
    and_step node i (Some r) s
    = (Ok r, {| mem := {| bitmaps := <[r := A ∩ tids]> (bitmaps (mem s));
                          clauses := clauses (mem s) |};
                plans := <[i := c']> (plans s);
                executed := executed s ++ [i] |}).
Proof.
  intros Hc Hva Hprod Hr. destruct (Hprod (mem s)) as (c' & a & Hfresh & Hrun).
  exists c'. unfold and_step.
  rewrite (bind_Ok _ _ _ _ _ (prepare_plain node i (Some r) s c Hc Hva)).
  rewrite (bind_Ok _ _ _ _ _ (exec_subnode_eq i s c _ _ _ Hc Hrun)).
  assert (Hne : r ≠ a) by congruence.
  erewrite merge_intersect; simpl.
  - rewrite (insert_insert_ne _ r a) by done.
    by rewrite delete_insert_id by (by rewrite lookup_insert_ne).
  - by rewrite lookup_insert_ne.
  - by rewrite lookup_insert_eq.
Qed.

(** *** A run of ordinary children *)

Lemma go_on_break node n i r s :
  bitmaps (mem s) !! r = Some ∅ →
  test_empty_and_go_on node n i r s = (Ok (Some r), s).
Proof.
  intros Hr. unfold test_empty_and_go_on, bind, tbm_is_empty. rewrite Hr.
  by rewrite bool_decide_eq_true_2.
Qed.

Lemma go_on_continue node n i r s A :
  bitmaps (mem s) !! r = Some A → A ≠ ∅ →
  test_empty_and_go_on node n i r s = and_loop node n i (Some r) s.
Proof.
  intros Hr HA. unfold test_empty_and_go_on, bind, tbm_is_empty. rewrite Hr.
  by rewrite bool_decide_eq_false_2.
Qed.

Lemma go_on_last node i r s :
  is_Some (bitmaps (mem s) !! r) →
  test_empty_and_go_on node 0 i r s = (Ok (Some r), s).
Proof.
  intros [A Hr]. unfold test_empty_and_go_on, bind, tbm_is_empty. rewrite Hr.
  by destruct (bool_decide _).
Qed.

(** The loop over a stretch [cs] of ordinary children that produce the
    sets [Ss], entered with the result [r] holding [A]: it either stops
    early on an empty result or arrives behind the stretch, and in both
    cases [r] holds the intersection of [A] with all of [Ss]. *)
Lemma go_on_plain node cs Ss :
  Forall2 (λ c tids, is_ADAM_scan c = false ∧ produces c tids) cs Ss →
  ∀ k i r s A,
    (∀ j c, cs !! j = Some c → plans s !! (i + j) = Some c) →
    bitmaps (mem s) !! r = Some A →
    ∃ s' A',
      bitmaps (mem s') !! r = Some A'
      ∧ (∀ x, x ∈ A' ↔ x ∈ A ∧ Forall (λ tids, x ∈ tids) Ss)
      ∧ clauses (mem s') = clauses (mem s)
      ∧ length (plans s') = length (plans s)
      ∧ (∀ j, i + length cs ≤ j → plans s' !! j = plans s !! j)
      ∧ (A' ≠ ∅ → executed s' = executed s ++ seq i (length cs))
      ∧ test_empty_and_go_on node (length cs + k) i r s
        = test_empty_and_go_on node k (i + length cs) r s'.
Proof.
  induction 1 as [|c tids cs Ss [Hva Hprod] _ IH]; intros k i r s A Hcs Hr.
  - exists s, A. simpl. rewrite Nat.add_0_r, app_nil_r.
    split_and!; try done.
    intros x. split; [intros Hx; split; [done|constructor]|by intros [Hx _]].
  - destruct (decide (A = ∅)) as [->|HA].
    + exists s, ∅. rewrite !go_on_break by done.
      split_and!; try done.
      intros x. split; [by intros ?%not_elem_of_empty|by intros [?%not_elem_of_empty _]].
    + rewrite (go_on_continue _ _ _ _ _ A) by done.
      cbn [length Nat.add]. rewrite and_loop_S.
      assert (Hc : plans s !! i = Some c).
      { rewrite <- (Nat.add_0_r i). by apply Hcs. }
      destruct (and_step_plain_intersect node i s c tids r A Hc Hva Hprod Hr)
        as (c' & Hstep).
      rewrite (bind_Ok _ _ _ _ _ Hstep).
      match type of Hstep with _ = (_, ?s1) =>
        destruct (IH k (S i) r s1 (A ∩ tids))
          as (s' & A' & Hr' & HA' & Hcl & Hlen & Hframe & Hex & Heq)
      end.
      { intros j c0 Hj. simpl.
        rewrite list_lookup_insert_ne by lia.
        replace (S (i + j)) with (i + S j) by lia. by apply Hcs. }
      { simpl. apply lookup_insert_eq. }
      simpl in *. exists s', A'.
      rewrite length_insert in Hlen.
      replace (i + S (length cs)) with (S (i + length cs)) by lia.
      split_and!; try done.
      * intros x. rewrite HA', elem_of_intersection, Forall_cons.
        split; [by intros [[? ?] ?]|by intros [? [? ?]]].
      * intros j Hj. rewrite Hframe by lia. apply list_lookup_insert_ne. lia.
      * intros HA''. rewrite Hex by done. by rewrite <- app_assoc.
Qed.

Lemma body_of_loop node s r s' :
  and_loop node (nplans node) 0 None s = (Ok (Some r), s') →
  MultiExecBitmapAnd_body node s = (Ok r, s').
Proof. intros H. unfold MultiExecBitmapAnd_body. by rewrite (bind_Ok _ _ _ _ _ H). Qed.

(** C2.  For n >= 1 ordinary children (none of them a similarity probe)
    whose executions produce the candidate sets S1 ... Sn, [execute]
    returns a bitmap that holds exactly the tuples that are in every Si.
    Children behind the first empty intermediate result are skipped, which
    does not change that value. *)
Theorem and_of_plain_children_is_their_intersection node m Ss :
  bitmapplans node ≠ [] →
  Forall2 (λ c tids, is_ADAM_scan c = false ∧ produces c tids) (bitmapplans node) Ss →
  ∃ r s' A,
    MultiExecBitmapAnd node m = (Ok r, s')
    ∧ bitmaps (mem s') !! r = Some A
    ∧ ∀ x, x ∈ A ↔ Forall (λ tids, x ∈ tids) Ss.
Proof.
  intros Hne Hall.
  assert (Hplain : Forall (λ c, is_ADAM_scan c = false) (bitmapplans node)).
  { clear Hne. induction Hall as [|???? [? _]]; by constructor. }
  unfold MultiExecBitmapAnd, start_state. rewrite (reorder_pass_plain _ Hplain).
  destruct (bitmapplans node) as [|c cs] eqn:Hcs; [done|].
  inversion Hall as [|? tids ? Ss' [Hva Hprod] Hrest]; subst.
  set (s0 := {| mem := m; plans := c :: cs; executed := [] |}).
  destruct (and_step_plain_first node 0 s0 c tids eq_refl Hva Hprod)
    as (c' & a & Hfresh & Hstep).
  match type of Hstep with _ = (_, ?s1) =>
    destruct (go_on_plain node cs Ss' Hrest 0 1 a s1 tids)
      as (s' & A' & Hr' & HA' & _ & _ & _ & _ & Heq)
  end.
  { intros j c0 Hj. done. }
  { simpl. apply lookup_insert_eq. }
  rewrite Nat.add_0_r in Heq.
  exists a, s', A'. split; [|split; [done|]].
  - apply body_of_loop. unfold nplans. rewrite Hcs. cbn [length].
    rewrite and_loop_S, (bind_Ok _ _ _ _ _ Hstep), Heq.
    apply go_on_last. by rewrite Hr'.
  - intros x. rewrite HA', Forall_cons. done.
Qed.

(** ** Where the loop stops *)

Lemma loop_reaches_executed node s0 i result s :
  loop_reaches node s0 i result s →
  executed s = executed s0 ++ seq 0 i ∧ length (plans s) = length (plans s0).
Proof.
  induction 1 as [|i result s r s' _ [IHe IHl] Hstep Hempty].
  - simpl. by rewrite app_nil_r.
  - apply and_step_Ok_executed in Hstep as [-> ->].
    rewrite IHe, IHl, seq_S, app_assoc. done.
Qed.

(** From a point the loop reaches, the whole loop does what the rest of
    the loop does from there. *)
Lemma and_loop_from node s0 i result s :
  loop_reaches node s0 i result s →
  ∀ n, and_loop node (i + n) 0 None s0 = and_loop node n i result s.
Proof.
  induction 1 as [|i result s r s' _ IH Hstep Hempty]; intros n; [done|].
  replace (S i + n) with (i + S n) by lia.
  rewrite IH, and_loop_S, (bind_Ok _ _ _ _ _ Hstep).
  unfold test_empty_and_go_on. by rewrite (bind_Ok _ _ _ _ _ Hempty).
Qed.

(** C3.  If, at any turn the loop comes to, the result is empty after the
    child of that turn has been processed, then [execute] returns that
    empty candidate set, and the children that ran are exactly those in
    the slots up to this one: no child behind it is ever run. *)
Theorem empty_result_ends_the_scan node m i result s r s' :
  loop_reaches node (start_state node m) i result s →
  i < nplans node →
  and_step node i result s = (Ok r, s') →
  bitmaps (mem s') !! r = Some ∅ →
  MultiExecBitmapAnd node m = (Ok r, s')
  ∧ bitmaps (mem s') !! r = Some ∅
  ∧ executed s' = seq 0 (S i)
  ∧ ∀ j, i < j → j ∉ executed s'.
Proof.
  intros Hreach Hi Hstep Hempty.
  assert (Hex : executed s' = seq 0 (S i)).
  { apply and_step_Ok_executed in Hstep as [-> _].
    apply loop_reaches_executed in Hreach as [-> _]. by rewrite seq_S. }
  split_and!; [|done|done|].
  - apply body_of_loop.
    replace (nplans node) with (i + S (nplans node - S i)) by lia.
    rewrite (and_loop_from _ _ _ _ _ Hreach), and_loop_S, (bind_Ok _ _ _ _ _ Hstep).
    by apply go_on_break.
  - intros j Hj. rewrite Hex, elem_of_seq. lia.
Qed.

(** ** Errors *)

(** The loop ends without a result only when it has no turn to make; its
    errors are those of a turn. *)
Lemma and_loop_outcome node n : ∀ i result s,
  match (and_loop node n i result s).1 with
  | Ok None => n = 0 ∧ result = None
  | Ok (Some _) => True
  | Err e => step_error e
  end.
Proof.
  induction n as [|n IH]; intros i result s.
  - simpl. by destruct result.
  - rewrite and_loop_S. unfold bind.
    destruct (and_step node i result s) as [[r|e] s1] eqn:Hstep; simpl.
    2:{ by eapply step_error_and_step. }
    unfold test_empty_and_go_on, bind.
    destruct (tbm_is_empty r s1) as [[[]|e] s2] eqn:Hempty; simpl; [done| |].
    + specialize (IH (S i) (Some r) s2).
      destruct (and_loop node n (S i) (Some r) s2) as [[[r'|]|e] s3]; simpl in *;
        [done| |done].
      by destruct IH.
    + left. symmetry. by eapply segv_tbm_is_empty.
Qed.

(** The zero-inputs error is raised for a node without children and for no
    other. *)
Lemma zero_inputs_iff node m :
  (MultiExecBitmapAnd node m).1 = Err (ERROR "BitmapAnd doesn't support zero inputs")
  ↔ bitmapplans node = [].
Proof.
  unfold MultiExecBitmapAnd, start_state, MultiExecBitmapAnd_body, bind, nplans. split.
  - intros H. destruct (bitmapplans node) as [|c cs] eqn:Hcs; [done|]. exfalso.
    revert H.
    match goal with |- context [and_loop node ?n 0 None ?s] =>
      pose proof (and_loop_outcome node n 0 None s) as Hout;
      destruct (and_loop node n 0 None s) as [[[r|]|e] s1]
    end; simpl in *.
    + done.
    + by destruct Hout.
    + intros [= ->]. by destruct Hout.
  - by intros ->.
Qed.

(** A turn runs at most the child in its own slot, and the loop never
    takes back what it has recorded. *)
Lemma and_step_executed_any node i result s :
  executed (and_step node i result s).2 = executed s
  ∨ executed (and_step node i result s).2 = executed s ++ [i].
Proof.
  unfold and_step, bind.
  destruct (quiet_prepare_subnode node i result s) as [He1 _].
  destruct (prepare_subnode node i result s) as [[[result' ni]|e] s1]; simpl in *;
    [|by left].
  unfold exec_subnode.
  destruct (plans s1 !! i) as [c|]; simpl; [|by left].
  destruct (MultiExecProcNode c (mem s1)) as [[c' m'] out].
  match goal with |- context [merge_subresult ?a ?b ?c ?s2] =>
    destruct (quiet_merge_subresult a b c s2) as [He3 _];
    destruct (merge_subresult a b c s2) as [[r|e] s3]
  end; simpl in *; right; congruence.
Qed.

Lemma and_loop_prefix node n : ∀ i result s,
  executed s `prefix_of` executed (and_loop node n i result s).2.
Proof.
  induction n as [|n IH]; intros i result s; [done|].
  rewrite and_loop_S. unfold bind.
  pose proof (and_step_executed_any node i result s) as Hstep.
  destruct (and_step node i result s) as [[r|e] s1]; simpl in *.
  2:{ destruct Hstep as [->| ->]; [done|by apply prefix_app_r]. }
  assert (Hs1 : executed s `prefix_of` executed s1).
  { destruct Hstep as [->| ->]; [done|by apply prefix_app_r]. }
  unfold test_empty_and_go_on, bind.
  destruct (quiet_tbm_is_empty r s1) as [He _].
  destruct (tbm_is_empty r s1) as [[[]|e] s2]; simpl in *; try (by rewrite He).
  etrans; [|apply IH]. by rewrite He.
Qed.

(** The last thing the loop does before it returns a result is to test it
    for emptiness, so the result is live. *)
Lemma and_loop_live node n : ∀ i result s r s',
  0 < n → and_loop node n i result s = (Ok (Some r), s') →
  is_Some (bitmaps (mem s') !! r).
Proof.
  induction n as [|n IH]; intros i result s r s' Hn; [lia|].
  rewrite and_loop_S.
  intros (r1 & s1 & Hstep & Hgo)%bind_Ok_inv.
  unfold test_empty_and_go_on in Hgo.
  apply bind_Ok_inv in Hgo as (empty & s2 & Hempty & Hgo).
  unfold tbm_is_empty in Hempty.
  destruct (bitmaps (mem s1) !! r1) as [A|] eqn:Hr1; [|done].
  injection Hempty as <- <-.
  destruct (bool_decide (A = ∅)).
  - injection Hgo as <- <-. by rewrite Hr1.
  - destruct n as [|n].
    + injection Hgo as <- <-. by rewrite Hr1.
    + eapply IH; [lia|done].
Qed.

(** Whatever [execute] returns is a live bitmap. *)
Lemma result_is_live node m r s' :
  MultiExecBitmapAnd node m = (Ok r, s') → is_Some (bitmaps (mem s') !! r).
Proof.
  unfold MultiExecBitmapAnd, MultiExecBitmapAnd_body.
  intros ([r'|] & s1 & Hloop & Hret)%bind_Ok_inv; [|done].
  injection Hret as <- <-.
  destruct (nplans node) as [|n] eqn:Hn; [done|].
  eapply and_loop_live; [|done]. lia.
Qed.

(** With a live scan clause and a live result, the part of a turn before
    the child runs goes through. *)
Lemma prepare_succeeds node i result s :
  i < length (plans s) → clause_valid node (mem s) → result_live result (mem s) →
  ∃ result' no_intersect s1,
    prepare_subnode node i result s = (Ok (result', no_intersect), s1)
    ∧ executed s1 = executed s
    ∧ length (plans s1) = length (plans s)
    ∧ clause_valid node (mem s1)
    ∧ result_live result' (mem s1).
Proof.
  intros Hi Hcl Hlive.
  destruct (lookup_lt_is_Some_2 _ _ Hi) as [c Hc].
  destruct (is_ADAM_scan c) eqn:Hva.
  2:{ exists result, false, s. by rewrite (prepare_plain _ _ _ _ c). }
  rewrite (prepare_ADAM _ _ _ _ c) by done.
  assert (Hsink : is_Some (bitmaps_with_sink result s !! sink_of result s)).
  { destruct result as [r|]; simpl; [by apply Hlive|]. by rewrite lookup_insert_eq. }
  destruct (adamPlanClause (ps_plan node)) as [p|] eqn:Hp.
  - destruct (Hcl p Hp) as [c0 Hc0].
    rewrite (setup_ADAM_scan_clause _ _ _ _ c p c0) by done.
    eexists _, _, _. split; [done|]. simpl. rewrite length_insert.
    split_and!; try done.
    + intros p' Hp'. rewrite Hp in Hp'. injection Hp' as <-. simpl.
      by rewrite lookup_insert_eq.
    + by intros r [= <-].
  - rewrite (setup_ADAM_scan_no_clause _ _ _ _ c) by done.
    eexists _, _, _. split; [done|]. simpl. rewrite length_insert.
    split_and!; try done.
    by intros r [= <-].
Qed.

(** With at least one child and a live scan clause, the child in slot 0 is
    run. *)
Lemma first_child_runs node m :
  bitmapplans node ≠ [] → clause_valid node m →
  head (executed (MultiExecBitmapAnd node m).2) = Some 0.
Proof.
  intros Hne Hcl.
  assert (Hn : 0 < length (reorder_pass (bitmapplans node))).
  { rewrite reorder_pass_length. destruct (bitmapplans node); [done|simpl; lia]. }
  unfold MultiExecBitmapAnd, start_state, MultiExecBitmapAnd_body, nplans.
  rewrite <- (reorder_pass_length (bitmapplans node)).
  set (s0 := {| mem := m; plans := reorder_pass (bitmapplans node); executed := [] |}).
  assert (Hpre : [0] `prefix_of`
            executed (and_loop node (length (reorder_pass (bitmapplans node))) 0 None s0).2).
  { destruct (length (reorder_pass (bitmapplans node))) as [|n] eqn:Hlen; [lia|].
    rewrite and_loop_S.
    assert (Hn0 : 0 < length (plans s0)) by (unfold s0; simpl; lia).
    destruct (prepare_succeeds node 0 None s0 Hn0 Hcl) as
      (result' & ni & s1 & Hprep & He1 & Hl1 & _); [done|].
    assert (Hstep : [0] `prefix_of` executed (and_step node 0 None s0).2).
    { unfold and_step. rewrite (bind_Ok _ _ _ _ _ Hprep).
      destruct (lookup_lt_is_Some_2 (plans s1) 0) as [c Hc]; [by rewrite Hl1|].
      destruct (MultiExecProcNode c (mem s1)) as [[c' m'] out] eqn:Hrun.
      rewrite (bind_Ok _ _ _ _ _ (exec_subnode_eq 0 s1 c _ _ _ Hc Hrun)).
      match goal with |- context [merge_subresult ?a ?b ?c ?s2] =>
        destruct (quiet_merge_subresult a b c s2) as [-> _]
      end. simpl. by rewrite He1. }
    unfold bind. destruct (and_step node 0 None s0) as [[r|e] s2]; simpl in *; [|done].
    unfold test_empty_and_go_on, bind.
    destruct (quiet_tbm_is_empty r s2) as [He _].
    destruct (tbm_is_empty r s2) as [[[]|e] s3]; simpl in *; try (by rewrite He).
    etrans; [|apply and_loop_prefix]. by rewrite He. }
  unfold bind.
  destruct (and_loop node _ 0 None s0) as [[[r|]|e] s1]; simpl in *;
    by destruct Hpre as [k ->].
Qed.

(** A child that returns NULL or a node that is not a [TIDBitmap] makes
    the turn, and with it the whole call, fail. *)
Lemma unrecognized_aborts node m i result s result' no_intersect s1 subnode subnode' m' subresult :
  loop_reaches node (start_state node m) i result s →
  i < nplans node →
  prepare_subnode node i result s = (Ok (result', no_intersect), s1) →
  plans s1 !! i = Some subnode →
  MultiExecProcNode subnode (mem s1) = (subnode', m', subresult) →
  unrecognized subresult →
  MultiExecBitmapAnd node m
  = (Err (ERROR "unrecognized result from subplan"),
     {| mem := m'; plans := <[i := subnode']> (plans s1); executed := executed s1 ++ [i] |}).
Proof.
  intros Hreach Hi Hprep Hsub Hrun Hbad.
  unfold MultiExecBitmapAnd, MultiExecBitmapAnd_body.
  replace (nplans node) with (i + S (nplans node - S i)) by lia.
  apply bind_Err.
  rewrite (and_loop_from _ _ _ _ _ Hreach), and_loop_S.
  apply bind_Err. unfold and_step.
  rewrite (bind_Ok _ _ _ _ _ Hprep).
  rewrite (bind_Ok _ _ _ _ _ (exec_subnode_eq i s1 subnode _ _ _ Hsub Hrun)).
  by apply merge_unrecognized.
Qed.

(** C7 (amended).  Initialization rejects no child list: with supported
    flags it succeeds and the node has one child state per child plan,
    none if there are none.  [execute] on that node fails with the
    zero-inputs error if and only if the child list was empty at
    initialization.  With at least one child (and a live scan clause, if
    the plan has one) the child in slot 0 is run, and whatever [execute]
    returns is a live candidate set.  [execute] fails with the
    unrecognized-result error if a child that it runs returns NULL or a
    node that is not a candidate set. *)
Theorem zero_inputs_and_unrecognized_results plan eflags m :
  Z.land eflags (Z.lor EXEC_FLAG_BACKWARD EXEC_FLAG_MARK) = 0%Z →
  ∃ node,
    ExecInitBitmapAnd plan eflags = Ok node
    ∧ bitmapplans node = (λ initNode, ExecInitNode initNode eflags) <$> plan_bitmapplans plan
    ∧ ((MultiExecBitmapAnd node m).1 = Err (ERROR "BitmapAnd doesn't support zero inputs")
       ↔ plan_bitmapplans plan = [])
    ∧ (plan_bitmapplans plan ≠ [] →
       (∀ p, adamPlanClause plan = Some p → is_Some (clauses m !! p)) →
       head (executed (MultiExecBitmapAnd node m).2) = Some 0)
    ∧ (∀ r s', MultiExecBitmapAnd node m = (Ok r, s') → is_Some (bitmaps (mem s') !! r))
    ∧ (∀ i result s result' no_intersect s1 subnode subnode' m' subresult,
         loop_reaches node (start_state node m) i result s →
         i < nplans node →
         prepare_subnode node i result s = (Ok (result', no_intersect), s1) →
         plans s1 !! i = Some subnode →
         MultiExecProcNode subnode (mem s1) = (subnode', m', subresult) →
         unrecognized subresult →
         (MultiExecBitmapAnd node m).1 = Err (ERROR "unrecognized result from subplan")).
Proof.
  intros Hflags. unfold ExecInitBitmapAnd.
  rewrite Hflags, andb_false_r. eexists. split; [done|]. split; [done|]. split_and!.
  - rewrite zero_inputs_iff. simpl. split; [apply fmap_nil_inv|by intros ->].
  - intros Hne Hcl. apply first_child_runs; [|done].
    simpl. by intros ?%fmap_nil_inv.
  - apply result_is_live.
  - intros i result s result' no_intersect s1 subnode subnode' m' subresult
      Hreach Hi Hprep Hsub Hrun Hbad.
    by rewrite (unrecognized_aborts _ _ _ _ _ _ _ _ _ _ _ _ Hreach Hi Hprep Hsub Hrun Hbad).
Qed.

(** ** Any number of probes *)

(** When every child returns a bitmap of its own, a turn goes through. *)
Lemma and_step_succeeds node i result s :
  (∀ c, returns_new_bitmap c) →
  i < length (plans s) → clause_valid node (mem s) → result_live result (mem s) →
  ∃ r s',
    and_step node i result s = (Ok r, s')
    ∧ length (plans s') = length (plans s)
    ∧ clause_valid node (mem s')
    ∧ is_Some (bitmaps (mem s') !! r).
Proof.
  intros Hwb Hi Hcl Hlive.
  destruct (prepare_succeeds node i result s Hi Hcl Hlive)
    as (result' & ni & s1 & Hprep & _ & Hl1 & Hcl1 & Hlive1).
  destruct (lookup_lt_is_Some_2 (plans s1) i) as [c Hc]; [by rewrite Hl1|].
  destruct (Hwb c (mem s1)) as (c' & a & tids & Hfresh & Hrun).
  unfold and_step.
  rewrite (bind_Ok _ _ _ _ _ Hprep).
  rewrite (bind_Ok _ _ _ _ _ (exec_subnode_eq i s1 c _ _ _ Hc Hrun)).
  destruct result' as [r|]; [destruct ni|].
  - rewrite merge_substitute. eexists _, _. split; [done|]. simpl.
    rewrite length_insert, lookup_insert_eq. done.
  - destruct (Hlive1 r eq_refl) as [A Hr].
    assert (Hne : r ≠ a) by congruence.
    erewrite merge_intersect; simpl.
    2:{ by rewrite lookup_insert_ne. }
    2:{ by rewrite lookup_insert_eq. }
    eexists _, _. split; [done|]. simpl. rewrite length_insert.
    split_and!; try done.
    rewrite lookup_delete_ne, lookup_insert_eq; done.
  - rewrite merge_first. eexists _, _. split; [done|]. simpl.
    rewrite length_insert, lookup_insert_eq. done.
Qed.

Lemma and_loop_succeeds node n : ∀ i result s,
  (∀ c, returns_new_bitmap c) →
  i + n = length (plans s) → clause_valid node (mem s) → result_live result (mem s) →
  (0 < n ∨ is_Some result) →
  ∃ r s',
    and_loop node n i result s = (Ok (Some r), s')
    ∧ is_Some (bitmaps (mem s') !! r).
Proof.
  induction n as [|n IH]; intros i result s Hwb Hlen Hcl Hlive Hn.
  - destruct Hn as [?|[r ->]]; [lia|]. exists r, s. split; [done|]. by apply Hlive.
  - destruct (and_step_succeeds node i result s Hwb) as (r & s1 & Hstep & Hl1 & Hcl1 & Hr);
      [lia|done..|].
    rewrite and_loop_S, (bind_Ok _ _ _ _ _ Hstep).
    destruct Hr as [A Hr].
    destruct (decide (A = ∅)) as [->|HA].
    + rewrite go_on_break by done. exists r, s1. by rewrite Hr.
    + rewrite (go_on_continue _ _ _ _ _ A) by done.
      apply IH; [done|lia|done| |by right].
      intros r' [= <-]. by rewrite Hr.
Qed.

(** C9 (amended).  Several similarity probes among the children are not
    detected, neither at initialization nor by [execute]: the reordering
    pass only rearranges the children it is given, whatever their number
    of probes (each probe it meets before the last slot is exchanged with
    the child then in the last slot), and when every child returns a
    bitmap of its own, [execute] on a node with at least one child runs
    to the end and returns a live candidate set. *)
Theorem several_probes_are_not_rejected node m :
  (∀ c, returns_new_bitmap c) →
  bitmapplans node ≠ [] →
  (∀ p, adamPlanClause (ps_plan node) = Some p → is_Some (clauses m !! p)) →
  reorder_pass (bitmapplans node) ≡ₚ bitmapplans node
  ∧ ∃ r s', MultiExecBitmapAnd node m = (Ok r, s') ∧ is_Some (bitmaps (mem s') !! r).
Proof.
  intros Hwb Hne Hcl. split; [apply reorder_pass_perm|].
  destruct (and_loop_succeeds node (nplans node) 0 None (start_state node m))
    as (r & s' & Hloop & Hr); try done.
  - simpl. by rewrite reorder_pass_length.
  - left. unfold nplans. destruct (bitmapplans node); [done|simpl; lia].
  - exists r, s'. split; [|done]. by apply body_of_loop.
Qed.

(** ** The similarity probe *)

(** As [go_on_plain], with the store and the trace: the bitmaps of the
    children have all been freed again, only the result has changed, and
    the children were run in order up to the point where the loop
    stopped. *)
Lemma go_on_plain_store node cs Ss :
  Forall2 (λ c tids, is_ADAM_scan c = false ∧ produces c tids) cs Ss →
  ∀ k i r s A,
    (∀ j c, cs !! j = Some c → plans s !! (i + j) = Some c) →
    bitmaps (mem s) !! r = Some A →
    ∃ s' A',
      bitmaps (mem s') = <[r := A']> (bitmaps (mem s))
      ∧ (∀ x, x ∈ A' ↔ x ∈ A ∧ Forall (λ tids, x ∈ tids) Ss)
      ∧ clauses (mem s') = clauses (mem s)
      ∧ length (plans s') = length (plans s)
      ∧ (∀ j, i + length cs ≤ j → plans s' !! j = plans s !! j)
      ∧ (A' ≠ ∅ → executed s' = executed s ++ seq i (length cs))
      ∧ (∃ n, n ≤ length cs ∧ executed s' = executed s ++ seq i n)
      ∧ test_empty_and_go_on node (length cs + k) i r s
        = test_empty_and_go_on node k (i + length cs) r s'.
Proof.
  induction 1 as [|c tids cs Ss [Hva Hprod] _ IH]; intros k i r s A Hcs Hr.
  - exists s, A. simpl. rewrite Nat.add_0_r, app_nil_r, insert_id by done.
    split_and!; try done.
    + intros x. split; [intros Hx; split; [done|constructor]|by intros [Hx _]].
    + exists 0. simpl. by rewrite app_nil_r.
  - destruct (decide (A = ∅)) as [->|HA].
    + exists s, ∅. rewrite !go_on_break, insert_id by done.
      split_and!; try done.
      * intros x. split; [by intros ?%not_elem_of_empty|by intros [?%not_elem_of_empty _]].
      * exists 0. simpl. rewrite app_nil_r. split; [lia|done].
    + rewrite (go_on_continue _ _ _ _ _ A) by done.
      cbn [length Nat.add]. rewrite and_loop_S.
      assert (Hc : plans s !! i = Some c).
      { rewrite <- (Nat.add_0_r i). by apply Hcs. }
      destruct (and_step_plain_intersect node i s c tids r A Hc Hva Hprod Hr)
        as (c' & Hstep).
      rewrite (bind_Ok _ _ _ _ _ Hstep).
      match type of Hstep with _ = (_, ?s1) =>
        destruct (IH k (S i) r s1 (A ∩ tids))
          as (s' & A' & Hr' & HA' & Hcl & Hlen & Hframe & Hex & (n & Hn & Hexn) & Heq)
      end.
      { intros j c0 Hj. simpl.
        rewrite list_lookup_insert_ne by lia.
        replace (S (i + j)) with (i + S j) by lia. by apply Hcs. }
      { simpl. apply lookup_insert_eq. }
      simpl in *. exists s', A'.
      rewrite length_insert in Hlen. rewrite insert_insert_eq in Hr'.
      replace (i + S (length cs)) with (S (i + length cs)) by lia.
      split_and!; try done.
      * intros x. rewrite HA', elem_of_intersection, Forall_cons.
        split; [by intros [[? ?] ?]|by intros [? [? ?]]].
      * intros j Hj. rewrite Hframe by lia. apply list_lookup_insert_ne. lia.
      * intros HA''. rewrite Hex by done. by rewrite <- app_assoc.
      * exists (S n). split; [lia|]. rewrite Hexn. by rewrite <- app_assoc.
Qed.

(** The loop over the other children of a node with one probe, as far as
    it goes: it stops before the probe, with the intersection [A] of
    their sets as the result, after the first [k] children. *)
Lemma loop_to_probe node m pre probe post out :
  bitmapplans node = pre ++ probe :: post →
  pre ++ post ≠ [] →
  Forall (λ c, is_ADAM_scan c = false ∧ produces c (out c)) (pre ++ post) →
  is_ADAM_scan probe = true →
  ∃ r s A k,
    bitmaps m !! r = None
    ∧ bitmaps (mem s) = <[r := A]> (bitmaps m)
    ∧ clauses (mem s) = clauses m
    ∧ (∀ y, y ∈ A ↔ Forall (λ c, y ∈ out c) (pre ++ post))
    ∧ plans s !! (nplans node - 1) = Some probe
    ∧ length (plans s) = nplans node
    ∧ executed s = seq 0 k
    ∧ k ≤ nplans node - 1
    ∧ (A ≠ ∅ → k = nplans node - 1)
    ∧ 0 < nplans node - 1
    ∧ and_loop node (nplans node) 0 None (start_state node m)
      = test_empty_and_go_on node 1 (nplans node - 1) r s.
Proof.
  intros Hkids Hne Hplain Hva.
  destruct (reorder_pass_one_probe pre probe post) as (others & Hre & Hperm);
    [by eapply Forall_impl; [exact Hplain|intros ? []]|done|].
  rewrite <- Hperm in Hplain.
  destruct others as [|c1 cs].
  { apply Permutation_nil_l in Hperm. by rewrite <- Hperm in Hne. }
  assert (Hn : nplans node = S (length cs + 1)).
  { unfold nplans. rewrite <- (reorder_pass_length (bitmapplans node)), Hkids, Hre.
    rewrite length_app. simpl. lia. }
  apply Forall_cons in Hplain as [[Hva1 Hprod1] Hplain].
  set (s0 := start_state node m).
  assert (Hplans0 : plans s0 = c1 :: cs ++ [probe]).
  { unfold s0. simpl. by rewrite Hkids, Hre. }
  destruct (and_step_plain_first node 0 s0 c1 (out c1)) as (c1' & a0 & Hfresh & Hstep1);
    [by rewrite Hplans0|done|done|].
  match type of Hstep1 with _ = (_, ?s) => set (s1 := s) in * end.
  assert (Hplans1 : plans s1 = c1' :: cs ++ [probe]).
  { unfold s1. cbn [plans]. by rewrite Hplans0. }
  assert (Hbm1 : bitmaps (mem s1) = <[a0 := out c1]> (bitmaps m)) by done.
  assert (Hcl1 : clauses (mem s1) = clauses m) by done.
  assert (Hex1 : executed s1 = [0]) by done.
  clearbody s1.
  destruct (go_on_plain_store node cs (out <$> cs)) with (k := 1) (i := 1) (r := a0) (s := s1)
    (A := out c1)
    as (s2 & A & Hbm2 & HA & Hcl2 & Hlen2 & Hframe2 & Hex2 & (n & Hnle & Hexn) & Hgo).
  { clear -Hplain. induction cs as [|c cs IH]; [constructor|].
    apply Forall_cons in Hplain as [? ?]. constructor; [done|by apply IH]. }
  { intros j c Hj. rewrite Hplans1. simpl. by apply lookup_app_l_Some. }
  { rewrite Hbm1. apply lookup_insert_eq. }
  exists a0, s2, A, (1 + n). rewrite Hn.
  replace (S (length cs + 1) - 1) with (1 + length cs) by lia.
  split_and!.
  - done.
  - by rewrite Hbm2, Hbm1, insert_insert_eq.
  - by rewrite Hcl2.
  - intros y. rewrite <- Hperm, HA, Forall_cons, Forall_fmap. done.
  - rewrite Hframe2 by lia. rewrite Hplans1. simpl.
    rewrite lookup_app_r by lia. by rewrite Nat.sub_diag.
  - rewrite Hlen2, Hplans1. simpl. by rewrite length_app.
  - by rewrite Hexn, Hex1.
  - lia.
  - intros HAne. specialize (Hex2 HAne). rewrite Hexn in Hex2.
    apply app_inv_head in Hex2. apply (f_equal length) in Hex2.
    rewrite !length_seq in Hex2. lia.
  - lia.
  - fold s0. by rewrite and_loop_S, (bind_Ok _ _ _ _ _ Hstep1), Hgo.
Qed.

(** The turn of a probe with a scan clause, behind a result [r]: the clause
    and the sink are set before the probe is called, and if the probe
    returns a bitmap, that bitmap replaces the result; nothing is written
    after the call. *)
Lemma and_step_probe_runs node i r s probe p c0 c' m' a :
  plans s !! i = Some probe → is_ADAM_scan probe = true →
  adamPlanClause (ps_plan node) = Some p → clauses (mem s) !! p = Some c0 →
  MultiExecProcNode (set_adamScanClause (Some p) (set_biss_result (Some r) probe))
    {| bitmaps := bitmaps (mem s);
       clauses := <[p := clause_for node i]> (clauses (mem s)) |}
  = (c', m', NodeAt T_TIDBitmap a) →
  and_step node i (Some r) s
  = (Ok a, {| mem := m'; plans := <[i := c']> (plans s); executed := executed s ++ [i] |}).
Proof.
  intros Hc Hva Hp Hc0 Hrun.
  unfold and_step.
  pose proof (setup_ADAM_scan_clause node i (Some r) s probe p c0 Hc Hp Hc0) as Hprep.
  rewrite <- (prepare_ADAM _ _ _ _ probe) in Hprep by done.
  rewrite (bind_Ok _ _ _ _ _ Hprep).
  simpl.
  erewrite bind_Ok.
  2:{ apply (exec_subnode_eq i _ (set_adamScanClause (Some p) (set_biss_result (Some r) probe))).
      - simpl. apply list_lookup_insert_eq. by eapply lookup_lt_Some.
      - simpl. exact Hrun. }
  rewrite merge_substitute. simpl. by rewrite list_insert_insert_eq.
Qed.

(** C1 (amended).  Take a node with exactly one similarity probe, a scan
    clause attached, and at least one other child, where the other
    children are ordinary and produce candidate sets; let [A] be the
    intersection of these sets.

    If [A] is not empty, the loop comes to the probe, last.  The probe is
    called with [biss_result] pointing to the result of the other
    children, which holds [A], and with the clause set to [nn_limit]
    equal to the node's limit and [check_tid] true.  If the probe returns
    a live bitmap, [execute] returns that very bitmap, in the store and
    with the probe's node as the probe left them: nothing is intersected
    with it and nothing is written after the call, so that the clause and
    the sink end as the probe leaves them.

    If [A] is empty, the loop stops before it comes to the probe: the
    probe is not run, its node and the clause are as they were, and
    [execute] returns the empty result of the other children. *)
Theorem probe_output_replaces_the_accumulator node m pre probe post p c0 out :
  bitmapplans node = pre ++ probe :: post →
  pre ++ post ≠ [] →
  Forall (λ c, is_ADAM_scan c = false ∧ produces c (out c)) (pre ++ post) →
  is_ADAM_scan probe = true →
  adamPlanClause (ps_plan node) = Some p →
  clauses m !! p = Some c0 →
  ∃ r A,
    bitmaps m !! r = None
    ∧ (∀ y, y ∈ A ↔ Forall (λ c, y ∈ out c) (pre ++ post))
    ∧ (A ≠ ∅ →
       ∀ c' m' a,
         MultiExecProcNode (set_adamScanClause (Some p) (set_biss_result (Some r) probe))
           {| bitmaps := <[r := A]> (bitmaps m);
              clauses := <[p := {| check_tid := true; nn_limit := limit node |}]>
                           (clauses m) |}
         = (c', m', NodeAt T_TIDBitmap a) →
         is_Some (bitmaps m' !! a) →
         ∃ s',
           MultiExecBitmapAnd node m = (Ok a, s')
           ∧ mem s' = m'
           ∧ last (plans s') = Some c'
           ∧ executed s' = seq 0 (nplans node))
    ∧ (A = ∅ →
       ∃ s',
         MultiExecBitmapAnd node m = (Ok r, s')
         ∧ bitmaps (mem s') = <[r := ∅]> (bitmaps m)
         ∧ clauses (mem s') = clauses m
         ∧ last (plans s') = Some probe
         ∧ (nplans node - 1) ∉ executed s').
Proof.
  intros Hkids Hne Hplain Hva Hp Hc0.
  destruct (loop_to_probe node m pre probe post out Hkids Hne Hplain Hva)
    as (r & s & A & k & Hfresh & Hbm & Hcl & HA & Hprobe & Hlen & Hex & Hk & Hfull & Hpos
        & Hloop).
  set (i := nplans node - 1) in *.
  assert (Hr : bitmaps (mem s) !! r = Some A).
  { rewrite Hbm. apply lookup_insert_eq. }
  assert (Hlast : ∀ l : list PlanState, length l = nplans node → last l = l !! i).
  { intros l Hl. rewrite last_lookup, Hl. f_equal. unfold i. lia. }
  exists r, A. split; [done|]. split; [done|]. split.
  - intros HAne c' m' a Hrun Hlive.
    assert (Hcf : clause_for node i = {| check_tid := true; nn_limit := limit node |}).
    { unfold clause_for. destruct (Nat.eqb_spec i 0) as [Hi|_]; [lia|done]. }
    assert (Hstep : and_step node i (Some r) s
              = (Ok a, {| mem := m'; plans := <[i := c']> (plans s);
                          executed := executed s ++ [i] |})).
    { apply (and_step_probe_runs node i r s probe p c0); try done.
      - by rewrite Hcl.
      - by rewrite Hcf, Hbm, Hcl. }
    eexists. split_and!.
    + apply body_of_loop.
      rewrite Hloop, (go_on_continue _ _ _ _ _ A), and_loop_S, (bind_Ok _ _ _ _ _ Hstep)
        by done.
      by apply go_on_last.
    + done.
    + cbn [plans]. rewrite Hlast by (by rewrite length_insert).
      apply list_lookup_insert_eq. by eapply lookup_lt_Some.
    + cbn [executed]. rewrite Hex, (Hfull HAne).
      replace (nplans node) with (i + 1) by (unfold i; lia).
      by rewrite seq_app.
  - intros ->. exists s. split_and!.
    + apply body_of_loop. rewrite Hloop. by apply go_on_break.
    + done.
    + done.
    + by rewrite Hlast.
    + rewrite Hex, elem_of_seq. lia.
Qed.



(** C10 (amended).  When the first child the loop runs is a similarity
    probe (as it is for a sole child) and the plan carries no scan clause,
    [execute] creates a new empty bitmap, hands it to the probe as its
    result sink, and then intersects what the probe returns into that
    bitmap.  If the probe returns a bitmap of its own, at an address that
    was free, and leaves the sink and the rest of the store as they were,
    then whatever tuples [tids] that bitmap holds, [execute] returns the
    sink, which is empty; the probe's bitmap has been freed, so that the
    store ends as it began but for the empty result; and no further child
    is run. *)
Theorem probe_without_clause_yields_empty node m probe rest :
  reorder_pass (bitmapplans node) = probe :: rest →
  is_ADAM_scan probe = true →
  adamPlanClause (ps_plan node) = None →
  returns_new_bitmap
    (set_adamScanClause None (set_biss_result (Some (fresh (dom (bitmaps m)))) probe)) →
  bitmaps m !! fresh (dom (bitmaps m)) = None
  ∧ ∃ c' a tids s',
      MultiExecProcNode
        (set_adamScanClause None (set_biss_result (Some (fresh (dom (bitmaps m)))) probe))
        {| bitmaps := <[fresh (dom (bitmaps m)) := ∅]> (bitmaps m); clauses := clauses m |}
      = (c',
         {| bitmaps := <[a := tids]> (<[fresh (dom (bitmaps m)) := ∅]> (bitmaps m));
            clauses := clauses m |},
         NodeAt T_TIDBitmap a)
      ∧ MultiExecBitmapAnd node m = (Ok (fresh (dom (bitmaps m))), s')
      ∧ bitmaps (mem s') !! fresh (dom (bitmaps m)) = Some ∅
      ∧ plans s' = c' :: rest
      ∧ executed s' = [0]
      ∧ bitmaps (mem s') = <[fresh (dom (bitmaps m)) := ∅]> (bitmaps m)
      ∧ clauses (mem s') = clauses m.
Proof.
  intros Hre Hva Hp Hnew.
  set (r := fresh (dom (bitmaps m))) in *.
  assert (Hfresh : bitmaps m !! r = None).
  { apply not_elem_of_dom. apply is_fresh. }
  split; [done|].
  set (s0 := start_state node m).
  assert (Hc : plans s0 !! 0 = Some probe) by (unfold s0; simpl; by rewrite Hre).
  assert (Hprep : prepare_subnode node 0 None s0
            = (Ok (Some r, false),
               {| mem := {| bitmaps := <[r := ∅]> (bitmaps m); clauses := clauses m |};
                  plans := set_adamScanClause None (set_biss_result (Some r) probe) :: rest;
                  executed := [] |})).
  { rewrite (prepare_ADAM _ _ _ _ probe) by done.
    rewrite (setup_ADAM_scan_no_clause _ _ _ _ probe) by done.
    unfold s0. simpl. by rewrite Hre. }
  destruct (Hnew {| bitmaps := <[r := ∅]> (bitmaps m); clauses := clauses m |})
    as (c' & a & tids & Ha & Hrun).
  simpl in Ha, Hrun.
  assert (Hne : r ≠ a).
  { intros <-. by rewrite lookup_insert_eq in Ha. }
  assert (Hstore : delete a (<[r := ∅]> (<[a := tids]> (<[r := ∅]> (bitmaps m))))
                   = <[r := ∅]> (bitmaps m)).
  { rewrite (insert_insert_ne _ r a) by done.
    rewrite insert_insert_eq. by apply delete_insert_id. }
  assert (Hstep : and_step node 0 None s0
            = (Ok r, {| mem := {| bitmaps :=
                                    delete a (<[r := ∅]> (<[a := tids]>
                                                (<[r := ∅]> (bitmaps m))));
                                  clauses := clauses m |};
                        plans := c' :: rest;
                        executed := [0] |})).
  { unfold and_step.
    rewrite (bind_Ok _ _ _ _ _ Hprep).
    erewrite bind_Ok.
    2:{ eapply exec_subnode_eq; [done|]. simpl. exact Hrun. }
    erewrite merge_intersect; simpl.
    2:{ by rewrite lookup_insert_ne, lookup_insert_eq. }
    2:{ by rewrite lookup_insert_eq. }
    by rewrite intersection_empty_l_L. }
  assert (Hempty : delete a (<[r := ∅]> (<[a := tids]> (<[r := ∅]> (bitmaps m)))) !! r
                   = Some (∅ : gset ItemPointer)).
  { rewrite lookup_delete_ne, lookup_insert_eq; done. }
  eexists c', a, tids, _. split; [exact Hrun|]. split; [|split_and!].
  - unfold MultiExecBitmapAnd. fold s0.
    apply body_of_loop. unfold nplans.
    rewrite <- (reorder_pass_length (bitmapplans node)), Hre. cbn [length].
    rewrite and_loop_S, (bind_Ok _ _ _ _ _ Hstep).
    by apply go_on_break.
  - done.
  - done.
  - done.
  - done.
  - done.
Qed.

(** ** Further properties of the node *)

(** *** Shutdown *)

Lemma end_steps a k n ended :
  k + n ≤ length a →
  ∃ idx,
    foldl (end_step a) ended (seq k n) = ended ++ idx
    ∧ idx `sublist_of` seq k n
    ∧ ∀ i, i ∈ idx ↔ k ≤ i < k + n ∧ ∃ c, a !! i = Some (Some c).
Proof.
  revert k ended. induction n as [|n IH]; intros k ended Hk.
  - exists []. simpl. rewrite app_nil_r. split_and!; [done|constructor|].
    intros i. split; [by intros ?%elem_of_nil|lia].
  - cbn [seq foldl].
    destruct (IH (S k) (end_step a ended k)) as (idx & Heq & Hsub & Hidx); [lia|].
    assert (Hstep : end_step a ended k
                    = match a !! k with Some (Some _) => ended ++ [k] | _ => ended end).
    { unfold end_step. by repeat case_match. }
    rewrite Hstep in *. clear Hstep.
    destruct (a !! k) as [[c|]|] eqn:Hak.
    + exists (k :: idx). rewrite Heq, <- app_assoc. split_and!; [done| |].
      * by apply sublist_skip.
      * intros i. rewrite elem_of_cons, Hidx. split.
        -- intros [->|[Hi Hc]]; [split; [lia|by exists c]|split; [lia|done]].
        -- intros [Hi Hc]. destruct (decide (i = k)) as [->|]; [by left|right].
           split; [lia|done].
    + exists idx. rewrite Heq. split_and!; [done| |].
      * by apply sublist_cons.
      * intros i. rewrite Hidx. split.
        -- intros [Hi Hc]. split; [lia|done].
        -- intros [Hi [c Hc]]. split; [|by exists c].
           destruct (decide (i = k)) as [->|]; [congruence|lia].
    + apply lookup_ge_None in Hak. lia.
Qed.


(** X1.  [ExecEndBitmapAnd] calls [ExecEndNode] on exactly the slots of the
    array that hold a child, once each and in the order of the array; a
    slot that is NULL is passed over. *)
Theorem shutdown_ends_each_child_once a :
  ExecEndBitmapAnd a `sublist_of` seq 0 (length a)
  ∧ NoDup (ExecEndBitmapAnd a)
  ∧ ∀ i, i ∈ ExecEndBitmapAnd a ↔ ∃ c, a !! i = Some (Some c).
Proof.
  destruct (end_steps a 0 (length a) []) as (idx & Heq & Hsub & Hidx); [lia|].
  unfold ExecEndBitmapAnd. rewrite Heq. rewrite app_nil_l. split_and!.
  - exact Hsub.
  - eapply sublist_NoDup; [apply NoDup_seq|exact Hsub].
  - intros i. rewrite Hidx. split; [by intros [_ ?]|].
    intros [c Hc]. split; [|by exists c].
    apply lookup_lt_Some in Hc. lia.
Qed.

(** *** Initialization *)


(** *** The reordering pass, whatever the last child is *)

(** The first VA index scan the pass meets is exchanged with the last
    child, and the pass does not come back to the slot it has filled. *)
Lemma reorder_pass_exchange pre x mid lst :
  Forall (λ c, is_ADAM_scan c = false) (pre ++ mid) →
  is_ADAM_scan x = true →
  reorder_pass (pre ++ x :: mid ++ [lst]) = pre ++ lst :: mid ++ [x].
Proof.
  intros Hplain Hx. unfold reorder_pass.
  apply Forall_app in Hplain as [Hpre Hmid].
  set (a := pre ++ x :: mid ++ [lst]).
  assert (Hlen : length a = length pre + (1 + S (length mid))).
  { unfold a. rewrite length_app. simpl. rewrite length_app. simpl. lia. }
  rewrite Hlen, seq_app, (seq_app 1), !foldl_app.
  change (seq (0 + length pre) 1) with [length pre]. cbn [foldl].
  rewrite (reorder_steps_id a 0).
  2:{ intros i subnode Hi Hsub Hva. exfalso.
      unfold a in Hsub. rewrite lookup_app_l in Hsub by lia.
      rewrite Forall_lookup in Hpre. specialize (Hpre _ _ Hsub). simpl in Hpre. congruence. }
  rewrite (reorder_step_probe a (length pre) x); [| |done|lia].
  2:{ unfold a. rewrite lookup_app_r by lia. by rewrite Nat.sub_diag. }
  unfold a. rewrite swap_with_last_app.
  apply reorder_steps_id.
  intros i subnode Hi Hsub Hva.
  rewrite length_app. simpl. rewrite length_app. simpl.
  destruct (decide (i = length pre + S (length mid))) as [->|Hne]; [lia|].
  exfalso.
  rewrite lookup_app_r in Hsub by lia.
  destruct (i - length pre) as [|j] eqn:Hj; [lia|]. simpl in Hsub.
  rewrite lookup_app_l in Hsub by lia.
  rewrite Forall_lookup in Hmid. specialize (Hmid _ _ Hsub). simpl in Hmid. congruence.
Qed.

(** X3.  The exchange does not look at the child in the last slot: when
    the first VA index scan of the list stands before the last slot and
    the children between it and the last slot are ordinary, that scan and
    the last child change places, be the last child an ordinary scan or a
    second VA index scan.  With a VA index scan in the first and in the
    last slot, the one that was last is therefore first afterwards, and a
    second pass puts the children back as they were. *)
Theorem reorder_pass_exchanges_with_any_last_child pre x mid lst :
  Forall (λ c, is_ADAM_scan c = false) (pre ++ mid) →
  is_ADAM_scan x = true →
  reorder_pass (pre ++ x :: mid ++ [lst]) = pre ++ lst :: mid ++ [x]
  ∧ (is_ADAM_scan lst = true →
     reorder_pass (reorder_pass (pre ++ x :: mid ++ [lst])) = pre ++ x :: mid ++ [lst]).
Proof.
  intros Hplain Hx. split; [by apply reorder_pass_exchange|].
  intros Hlst. by rewrite !reorder_pass_exchange.
Qed.

(** *** The order in which the children are run *)

Lemma and_step_length node i result s :
  length (plans (and_step node i result s).2) = length (plans s).
Proof.
  unfold and_step, bind.
  destruct (quiet_prepare_subnode node i result s) as [_ Hl1].
  destruct (prepare_subnode node i result s) as [[[result' ni]|e] s1]; simpl in *; [|done].
  unfold exec_subnode.
  destruct (plans s1 !! i) as [c|]; simpl; [|done].
  destruct (MultiExecProcNode c (mem s1)) as [[c' m'] out].
  match goal with |- context [merge_subresult ?a ?b ?c ?s2] =>
    destruct (quiet_merge_subresult a b c s2) as [_ Hl3];
    destruct (merge_subresult a b c s2) as [[r|e] s3]
  end; simpl in *; rewrite Hl3, length_insert; done.
Qed.

(** The loop runs the children of a stretch of slots from its first slot
    on, and breaks off before the end of the stretch only with an error
    or with an empty result. *)
Lemma and_loop_trace node n : ∀ i result s,
  ∃ k, k ≤ n
    ∧ executed (and_loop node n i result s).2 = executed s ++ seq i k
    ∧ length (plans (and_loop node n i result s).2) = length (plans s)
    ∧ ∀ r, (and_loop node n i result s).1 = Ok (Some r) → k < n →
        bitmaps (mem (and_loop node n i result s).2) !! r = Some ∅.
Proof.
  induction n as [|n IH]; intros i result s.
  - exists 0. simpl. rewrite app_nil_r. split_and!; [done..|]. intros; lia.
  - rewrite and_loop_S. unfold bind.
    pose proof (and_step_length node i result s) as Hlen.
    pose proof (and_step_executed_any node i result s) as Hany.
    destruct (and_step node i result s) as [[r|e] s1] eqn:Hstep; simpl in *.
    2:{ destruct Hany as [Hex|Hex].
        - exists 0. rewrite Hex, app_nil_r. split_and!; [lia|done..].
        - exists 1. rewrite Hex. split_and!; [lia|done..]. }
    apply and_step_Ok_executed in Hstep as [Hex _].
    unfold test_empty_and_go_on, bind, tbm_is_empty.
    destruct (bitmaps (mem s1) !! r) as [A|] eqn:Hr; simpl.
    2:{ exists 1. rewrite Hex. split_and!; [lia|done..]. }
    destruct (bool_decide (A = ∅)) eqn:HA; simpl.
    + apply bool_decide_eq_true in HA as ->.
      exists 1. rewrite Hex. split_and!; [lia|done..|].
      intros r' [= <-] _. done.
    + destruct (IH (S i) (Some r) s1) as (k & Hk & Hexk & Hlenk & Hempty).
      exists (S k). rewrite Hexk, Hlenk, Hex, Hlen, <- app_assoc.
      split_and!; [lia|done..|].
      intros r' Hr' Hlt. apply Hempty; [done|lia].
Qed.

(** X4.  Whatever the children do and however the call ends, [execute]
    runs the children one after the other in the order of the array as
    the reordering pass left it, from slot 0 on, each at most once and
    without leaving one out in between; and it keeps the array at its
    length. *)
Theorem children_run_in_slot_order node m :
  ∃ k, k ≤ nplans node
    ∧ executed (MultiExecBitmapAnd node m).2 = seq 0 k
    ∧ length (plans (MultiExecBitmapAnd node m).2) = nplans node.
Proof.
  destruct (and_loop_trace node (nplans node) 0 None (start_state node m))
    as (k & Hk & Hex & Hlen & _).
  exists k. split; [done|].
  unfold MultiExecBitmapAnd, MultiExecBitmapAnd_body, bind.
  destruct (and_loop node (nplans node) 0 None (start_state node m)) as [[[r|]|e] s1];
    simpl in *; rewrite Hex, Hlen, reorder_pass_length; done.
Qed.

(** X5.  [execute] leaves a child out only behind an empty result: when it
    returns a candidate set that is not empty, every child has been run. *)
Theorem nonempty_result_means_all_children_ran node m r s' A :
  MultiExecBitmapAnd node m = (Ok r, s') →
  bitmaps (mem s') !! r = Some A →
  A ≠ ∅ →
  executed s' = seq 0 (nplans node).
Proof.
  intros Hrun Hr HA.
  destruct (and_loop_trace node (nplans node) 0 None (start_state node m))
    as (k & Hk & Hex & _ & Hempty).
  unfold MultiExecBitmapAnd, MultiExecBitmapAnd_body in Hrun.
  apply bind_Ok_inv in Hrun as ([r'|] & s1 & Hloop & Hret); [|done].
  injection Hret as <- <-. rewrite Hloop in Hex, Hempty. simpl in Hex, Hempty.
  destruct (decide (k = nplans node)) as [->|Hne]; [done|].
  rewrite Hempty in Hr; [|done|lia]. congruence.
Qed.

(** *** Where the unrecognized-result error comes from *)

Lemma merge_error_inv result no_intersect subresult s msg s' :
  merge_subresult result no_intersect subresult s = (Err (ERROR msg), s') →
  unrecognized subresult ∧ s' = s.
Proof.
  unfold merge_subresult, elog, raise.
  destruct subresult as [|tag sub]; [by intros [= _ <-]|].
  unfold IsA. destruct (decide (tag = T_TIDBitmap)) as [->|Hne].
  - rewrite bool_decide_eq_true_2 by done. simpl. intros H. exfalso.
    assert (Hsegv : fails_in (eq SEGV)
              (match result with
               | Some r => if no_intersect then ret sub
                           else run tbm_intersect r sub; run tbm_free sub; ret r
               | None => ret sub
               end)) by segv_tac.
    by specialize (Hsegv _ _ _ H).
  - rewrite bool_decide_eq_false_2 by done. simpl. by intros [= _ <-].
Qed.

Lemma and_loop_unrecognized node s0 n : ∀ i result s msg s',
  loop_reaches node s0 i result s →
  and_loop node n i result s = (Err (ERROR msg), s') →
  ∃ j result_j s_j result' no_intersect s1 subnode subnode' m' subresult,
    loop_reaches node s0 j result_j s_j
    ∧ i ≤ j < i + n
    ∧ prepare_subnode node j result_j s_j = (Ok (result', no_intersect), s1)
    ∧ plans s1 !! j = Some subnode
    ∧ MultiExecProcNode subnode (mem s1) = (subnode', m', subresult)
    ∧ unrecognized subresult
    ∧ s' = {| mem := m'; plans := <[j := subnode']> (plans s1);
              executed := executed s1 ++ [j] |}.
Proof.
  induction n as [|n IH]; intros i result s msg s' Hreach; [done|].
  rewrite and_loop_S.
  intros [Hstep|(r & s1 & Hstep & Hgo)]%bind_Err_inv.
  - unfold and_step in Hstep.
    apply bind_Err_inv in Hstep as [Hprep|([result' ni] & s1 & Hprep & Hrest)].
    { by apply segv_prepare_subnode in Hprep. }
    apply bind_Err_inv in Hrest as [Hexec|(out & s2 & Hexec & Hmerge)].
    { by apply segv_exec_subnode in Hexec. }
    unfold exec_subnode in Hexec.
    destruct (plans s1 !! i) as [subnode|] eqn:Hsub; [|done].
    destruct (MultiExecProcNode subnode (mem s1)) as [[subnode' m'] out'] eqn:Hrun.
    injection Hexec as <- <-.
    apply merge_error_inv in Hmerge as [Hbad ->].
    exists i, result, s, result', ni, s1, subnode, subnode', m', out'.
    split_and!; try done; lia.
  - unfold test_empty_and_go_on in Hgo.
    apply bind_Err_inv in Hgo as [Hempty|(empty & s2 & Hempty & Hrest)].
    { by apply segv_tbm_is_empty in Hempty. }
    assert (s2 = s1) as ->.
    { unfold tbm_is_empty in Hempty. destruct (bitmaps (mem s1) !! r); by injection Hempty. }
    destruct empty; [done|].
    destruct (IH (S i) (Some r) s1 msg s') as
      (j & result_j & s_j & result' & ni & s3 & sub & sub' & m' & out & Hr & Hj & Hrest');
      [by eapply reaches_next|done|].
    exists j, result_j, s_j, result', ni, s3, sub, sub', m', out.
    split; [done|]. split; [lia|done].
Qed.

(** X6.  [execute] raises the unrecognized-result error only for what a
    child returned: if the call fails with that error, the loop had come
    to some slot, had prepared the child there and run it, and the child
    had returned NULL or a node that is not a [TIDBitmap]; that child is
    the last one run, and the state is left as that child left it. *)
Theorem unrecognized_error_comes_from_a_child node m s' :
  MultiExecBitmapAnd node m = (Err (ERROR "unrecognized result from subplan"), s') →
  ∃ i result s result' no_intersect s1 subnode subnode' m' subresult,
    loop_reaches node (start_state node m) i result s
    ∧ i < nplans node
    ∧ prepare_subnode node i result s = (Ok (result', no_intersect), s1)
    ∧ plans s1 !! i = Some subnode
    ∧ MultiExecProcNode subnode (mem s1) = (subnode', m', subresult)
    ∧ unrecognized subresult
    ∧ s' = {| mem := m'; plans := <[i := subnode']> (plans s1);
              executed := executed s1 ++ [i] |}.
Proof.
  unfold MultiExecBitmapAnd, MultiExecBitmapAnd_body.
  intros [Hloop|([r|] & s1 & Hloop & Hret)]%bind_Err_inv; [|done..].
  destruct (and_loop_unrecognized node (start_state node m) (nplans node) 0 None
              (start_state node m) _ s' (reaches_start _ _) Hloop)
    as (j & result_j & s_j & result' & ni & s3 & sub & sub' & m' & out & Hr & Hj & Hrest).
  exists j, result_j, s_j, result', ni, s3, sub, sub', m', out.
  split; [done|]. split; [lia|done].
Qed.

(** *** The store after a run of ordinary children *)

(** What [execute] does for a node of ordinary children only. *)
Lemma plain_children_run node m Ss :
  bitmapplans node ≠ [] →
  Forall2 (λ c tids, is_ADAM_scan c = false ∧ produces c tids) (bitmapplans node) Ss →
  ∃ r s' A,
    MultiExecBitmapAnd node m = (Ok r, s')
    ∧ bitmaps m !! r = None
    ∧ bitmaps (mem s') = <[r := A]> (bitmaps m)
    ∧ clauses (mem s') = clauses m
    ∧ ∀ x, x ∈ A ↔ Forall (λ tids, x ∈ tids) Ss.
Proof.
  intros Hne Hall.
  assert (Hplain : Forall (λ c, is_ADAM_scan c = false) (bitmapplans node)).
  { clear Hne. induction Hall as [|???? [? _]]; by constructor. }
  unfold MultiExecBitmapAnd, start_state. rewrite (reorder_pass_plain _ Hplain).
  destruct (bitmapplans node) as [|c cs] eqn:Hcs; [done|].
  inversion Hall as [|? tids ? Ss' [Hva Hprod] Hrest]; subst.
  set (s0 := {| mem := m; plans := c :: cs; executed := [] |}).
  destruct (and_step_plain_first node 0 s0 c tids eq_refl Hva Hprod)
    as (c' & a & Hfresh & Hstep).
  match type of Hstep with _ = (_, ?s1) =>
    destruct (go_on_plain_store node cs Ss' Hrest 0 1 a s1 tids)
      as (s' & A' & Hr' & HA' & Hcl & _ & _ & _ & _ & Heq)
  end.
  { intros j c0 Hj. done. }
  { simpl. apply lookup_insert_eq. }
  rewrite Nat.add_0_r in Heq. simpl in Hr', Hcl. rewrite insert_insert_eq in Hr'.
  exists a, s', A'. split_and!; try done.
  - apply body_of_loop. unfold nplans. rewrite Hcs. cbn [length].
    rewrite and_loop_S, (bind_Ok _ _ _ _ _ Hstep), Heq.
    apply go_on_last. by rewrite Hr', lookup_insert_eq.
  - intros x. rewrite HA', Forall_cons. done.
Qed.

(** X7.  A node of n >= 1 ordinary children leaks no bitmap and writes no
    scan clause: when [execute] returns, the store holds the bitmaps it
    held before and one more, the result, which sits at an address that
    was free before; every other bitmap a child returned has been freed.
    The scan clauses are as before. *)
Theorem plain_children_leave_only_the_result node m Ss :
  bitmapplans node ≠ [] →
  Forall2 (λ c tids, is_ADAM_scan c = false ∧ produces c tids) (bitmapplans node) Ss →
  ∃ r s' A,
    MultiExecBitmapAnd node m = (Ok r, s')
    ∧ bitmaps m !! r = None
    ∧ bitmaps (mem s') = <[r := A]> (bitmaps m)
    ∧ clauses (mem s') = clauses m.
Proof.
  intros Hne Hall.
  destruct (plain_children_run node m Ss Hne Hall) as (r & s' & A & H1 & H2 & H3 & H4 & _).
  by exists r, s', A.
Qed.

(** X8.  The candidate set a node of ordinary children returns does not
    depend on the order of the children: two nodes whose child lists are
    rearrangements of each other return the same set, though the one may
    stop early where the other runs every child. *)
Theorem plain_children_in_any_order node1 node2 m1 m2 out :
  bitmapplans node1 ≠ [] →
  bitmapplans node1 ≡ₚ bitmapplans node2 →
  Forall (λ c, is_ADAM_scan c = false ∧ produces c (out c)) (bitmapplans node1) →
  ∃ r1 s1 r2 s2 A,
    MultiExecBitmapAnd node1 m1 = (Ok r1, s1)
    ∧ MultiExecBitmapAnd node2 m2 = (Ok r2, s2)
    ∧ bitmaps (mem s1) !! r1 = Some A
    ∧ bitmaps (mem s2) !! r2 = Some A.
Proof.
  intros Hne Hperm Hall1.
  assert (Hall2 : Forall (λ c, is_ADAM_scan c = false ∧ produces c (out c))
                    (bitmapplans node2)) by (by rewrite <- Hperm).
  assert (Hne2 : bitmapplans node2 ≠ []).
  { intros Hnil. rewrite Hnil in Hperm. by apply Permutation_nil_r in Hperm. }
  assert (Hf2 : ∀ l, Forall (λ c, is_ADAM_scan c = false ∧ produces c (out c)) l →
            Forall2 (λ c tids, is_ADAM_scan c = false ∧ produces c tids) l (out <$> l)).
  { induction 1; constructor; done. }
  destruct (plain_children_run node1 m1 _ Hne (Hf2 _ Hall1))
    as (r1 & s1 & A1 & Hrun1 & _ & Hbm1 & _ & HA1).
  destruct (plain_children_run node2 m2 _ Hne2 (Hf2 _ Hall2))
    as (r2 & s2 & A2 & Hrun2 & _ & Hbm2 & _ & HA2).
  assert (A1 = A2) as <-.
  { apply set_eq. intros x. rewrite HA1, HA2, !Forall_fmap. by rewrite Hperm. }
  exists r1, s1, r2, s2, A1. split_and!; try done.
  - by rewrite Hbm1, lookup_insert_eq.
  - by rewrite Hbm2, lookup_insert_eq.
Qed.

(** *** Two probes *)


(** *** Substitution and the old result *)

(** The loop over the other children of a node with one probe, up to the
    turn of the probe, when their sets have a tuple in common. *)
Lemma loop_up_to_probe node m pre probe post out x :
  bitmapplans node = pre ++ probe :: post →
  pre ++ post ≠ [] →
  Forall (λ c, is_ADAM_scan c = false ∧ produces c (out c)) (pre ++ post) →
  is_ADAM_scan probe = true →
  Forall (λ c, x ∈ out c) (pre ++ post) →
  ∃ r s A,
    bitmaps m !! r = None
    ∧ bitmaps (mem s) = <[r := A]> (bitmaps m)
    ∧ clauses (mem s) = clauses m
    ∧ (∀ y, y ∈ A ↔ Forall (λ c, y ∈ out c) (pre ++ post))
    ∧ A ≠ ∅
    ∧ plans s !! (nplans node - 1) = Some probe
    ∧ executed s = seq 0 (nplans node - 1)
    ∧ 0 < nplans node - 1
    ∧ and_loop node (nplans node) 0 None (start_state node m)
      = and_loop node 1 (nplans node - 1) (Some r) s.
Proof.
  intros Hkids Hne Hplain Hva Hx.
  destruct (loop_to_probe node m pre probe post out Hkids Hne Hplain Hva)
    as (r & s & A & k & Hfresh & Hbm & Hcl & HA & Hprobe & _ & Hex & _ & Hfull & Hpos
        & Hloop).
  assert (HAne : A ≠ ∅).
  { intros ->. apply HA in Hx. by apply not_elem_of_empty in Hx. }
  exists r, s, A. split_and!; try done.
  - by rewrite Hex, Hfull.
  - rewrite Hloop. apply (go_on_continue _ _ _ _ _ A); [|done].
    rewrite Hbm. apply lookup_insert_eq.
Qed.

(** X10.  In substitution mode nothing is released.  For a node with one
    probe that has a scan clause, and other children whose sets have a
    tuple in common, let the probe return a bitmap of its own: then
    [execute] returns the probe's bitmap, and the result of the other
    children, which holds their intersection, is still live in the store
    at a different address; the store has grown by these two bitmaps. *)
Theorem substitution_keeps_the_old_result_allocated node m pre probe post p c0 out x :
  bitmapplans node = pre ++ probe :: post →
  pre ++ post ≠ [] →
  Forall (λ c, is_ADAM_scan c = false ∧ produces c (out c)) (pre ++ post) →
  is_ADAM_scan probe = true →
  (∀ sink cl, returns_new_bitmap (set_adamScanClause cl (set_biss_result sink probe))) →
  adamPlanClause (ps_plan node) = Some p →
  clauses m !! p = Some c0 →
  Forall (λ c, x ∈ out c) (pre ++ post) →
  ∃ r A a tids s',
    MultiExecBitmapAnd node m = (Ok a, s')
    ∧ a ≠ r
    ∧ bitmaps m !! r = None ∧ bitmaps m !! a = None
    ∧ bitmaps (mem s') = <[a := tids]> (<[r := A]> (bitmaps m))
    ∧ (∀ y, y ∈ A ↔ Forall (λ c, y ∈ out c) (pre ++ post)).
Proof.
  intros Hkids Hne Hplain Hva Hnew Hp Hc0 Hx.
  destruct (loop_up_to_probe node m pre probe post out x)
    as (r & s & A & Hfresh & Hbm & Hcl & HA & HAne & Hprobe & Hex & Hpos & Hloop);
    try done.
  set (i := nplans node - 1) in *.
  assert (Hc0s : clauses (mem s) !! p = Some c0) by (by rewrite Hcl).
  pose proof (setup_ADAM_scan_clause node i (Some r) s probe p c0 Hprobe Hp Hc0s) as Hprep.
  rewrite <- (prepare_ADAM _ _ _ _ probe) in Hprep by done.
  simpl in Hprep.
  destruct (Hnew (Some r) (Some p)
              {| bitmaps := bitmaps (mem s);
                 clauses := <[p := clause_for node i]> (clauses (mem s)) |})
    as (c' & a & tids & Ha & Hrun).
  simpl in Ha, Hrun.
  assert (Hstep : and_step node i (Some r) s
            = (Ok a, {| mem := {| bitmaps := <[a := tids]> (bitmaps (mem s));
                                  clauses := <[p := clause_for node i]> (clauses (mem s)) |};
                        plans := <[i := c']> (plans s);
                        executed := executed s ++ [i] |})).
  { unfold and_step.
    rewrite (bind_Ok _ _ _ _ _ Hprep).
    erewrite bind_Ok.
    2:{ apply (exec_subnode_eq i _
                 (set_adamScanClause (Some p) (set_biss_result (Some r) probe))).
        - simpl. apply list_lookup_insert_eq. by eapply lookup_lt_Some.
        - simpl. exact Hrun. }
    rewrite merge_substitute. simpl. by rewrite list_insert_insert_eq. }
  assert (Hne' : a ≠ r).
  { intros ->. by rewrite Hbm, lookup_insert_eq in Ha. }
  exists r, A, a, tids. eexists. split_and!.
  - apply body_of_loop. rewrite Hloop, and_loop_S, (bind_Ok _ _ _ _ _ Hstep).
    apply go_on_last. simpl. by rewrite lookup_insert_eq.
  - done.
  - done.
  - rewrite Hbm in Ha. by rewrite lookup_insert_ne in Ha.
  - simpl. by rewrite Hbm.
  - done.
Qed.

(** *** A probe in a plan without a scan clause *)

(** X11.  Take a node with exactly one VA index scan, in a plan without a
    scan clause, and at least one other child, where the other children
    are ordinary and produce candidate sets that have a tuple in common,
    and where the scan, however it is configured, returns a bitmap of its
    own at an address that was free and leaves the rest of the store as
    it was.  Then the scan is one more input of the AND: the other
    children are run first; the scan is run last, with their result as
    its sink and no clause; its bitmap is intersected into the result and
    freed, so that [execute] returns the result of the other children
    narrowed by the scan's tuples; the store holds one new bitmap only;
    and every child has been run. *)
Theorem probe_without_clause_narrows_the_result node m pre probe post out x :
  bitmapplans node = pre ++ probe :: post →
  pre ++ post ≠ [] →
  Forall (λ c, is_ADAM_scan c = false ∧ produces c (out c)) (pre ++ post) →
  is_ADAM_scan probe = true →
  (∀ sink cl, returns_new_bitmap (set_adamScanClause cl (set_biss_result sink probe))) →
  adamPlanClause (ps_plan node) = None →
  Forall (λ c, x ∈ out c) (pre ++ post) →
  ∃ r A c' a tids s',
    MultiExecProcNode (set_adamScanClause None (set_biss_result (Some r) probe))
      {| bitmaps := <[r := A]> (bitmaps m); clauses := clauses m |}
    = (c', {| bitmaps := <[a := tids]> (<[r := A]> (bitmaps m)); clauses := clauses m |},
       NodeAt T_TIDBitmap a)
    ∧ MultiExecBitmapAnd node m = (Ok r, s')
    ∧ bitmaps m !! r = None
    ∧ bitmaps (mem s') = <[r := A ∩ tids]> (bitmaps m)
    ∧ clauses (mem s') = clauses m
    ∧ (∀ y, y ∈ A ↔ Forall (λ c, y ∈ out c) (pre ++ post))
    ∧ executed s' = seq 0 (nplans node).
Proof.
  intros Hkids Hne Hplain Hva Hnew Hp Hx.
  destruct (loop_up_to_probe node m pre probe post out x)
    as (r & s & A & Hfresh & Hbm & Hcl & HA & HAne & Hprobe & Hex & Hpos & Hloop);
    try done.
  set (i := nplans node - 1) in *.
  pose proof (setup_ADAM_scan_no_clause node i (Some r) s probe Hprobe Hp) as Hprep.
  rewrite <- (prepare_ADAM _ _ _ _ probe) in Hprep by done.
  simpl in Hprep.
  destruct (Hnew (Some r) None
              {| bitmaps := bitmaps (mem s); clauses := clauses (mem s) |})
    as (c' & a & tids & Ha & Hrun).
  simpl in Ha, Hrun.
  assert (Hne' : r ≠ a).
  { intros <-. by rewrite Hbm, lookup_insert_eq in Ha. }
  assert (Hstep : and_step node i (Some r) s
            = (Ok r, {| mem := {| bitmaps := <[r := A ∩ tids]> (bitmaps m);
                                  clauses := clauses m |};
                        plans := <[i := c']> (plans s);
                        executed := executed s ++ [i] |})).
  { unfold and_step.
    rewrite (bind_Ok _ _ _ _ _ Hprep).
    erewrite bind_Ok.
    2:{ apply (exec_subnode_eq i _
                 (set_adamScanClause None (set_biss_result (Some r) probe))).
        - simpl. apply list_lookup_insert_eq. by eapply lookup_lt_Some.
        - simpl. exact Hrun. }
    erewrite (merge_intersect r a _ A tids); simpl.
    2:{ by rewrite lookup_insert_ne, Hbm, lookup_insert_eq. }
    2:{ by rewrite lookup_insert_eq. }
    rewrite list_insert_insert_eq, Hcl. do 3 f_equal.
    rewrite (insert_insert_ne _ r a) by done.
    rewrite delete_insert_id.
    - by rewrite Hbm, insert_insert_eq.
    - rewrite lookup_insert_ne by done. done. }
  exists r, A, c', a, tids. eexists. split_and!.
  - rewrite Hbm, Hcl in Hrun. exact Hrun.
  - apply body_of_loop. rewrite Hloop, and_loop_S, (bind_Ok _ _ _ _ _ Hstep).
    apply go_on_last. simpl. by rewrite lookup_insert_eq.
  - done.
  - done.
  - done.
  - done.
  - simpl. rewrite Hex. unfold i.
    replace (nplans node) with (nplans node - 1 + 1) at 3 by lia.
    by rewrite seq_app.
Qed.

(** *** What the reordering pass leaves alone *)

(** X13.  The pass moves a child only if all three tests of its guard
    hold.  If every child before the last slot fails one of them (it is
    not a bitmap index scan, or has no relation descriptor, or its index
    is of another access method), the array is left as it was, whatever
    the last child is, and the loop runs the children in the order of the
    plan. *)
Theorem pass_moves_only_VA_index_scans node m l x :
  bitmapplans node = l ++ [x] →
  Forall (λ c, type c ≠ T_BitmapIndexScanState
               ∨ biss_RelationDesc c = None
               ∨ ∃ rd, biss_RelationDesc c = Some rd ∧ relam rd ≠ VA_AM_OID) l →
  reorder_pass (l ++ [x]) = l ++ [x]
  ∧ plans (start_state node m) = bitmapplans node.
Proof.
  intros Hkids Hl.
  assert (Hre : reorder_pass (l ++ [x]) = l ++ [x]).
  { apply reorder_pass_probe_last. eapply Forall_impl; [exact Hl|].
    intros c Hc. unfold is_ADAM_scan, uses_VA_index, IsA. simpl in Hc.
    destruct Hc as [Htag|[Hrd|(rd & Hrd & Ham)]].
    - by rewrite bool_decide_eq_false_2.
    - rewrite Hrd. apply andb_false_r.
    - rewrite Hrd. apply andb_false_iff. right. by apply Z.eqb_neq. }
  split; [done|]. simpl. by rewrite Hkids, Hre.
Qed.

End BitmapAnd.

(** *** Rescan without a pending set *)

(** X12.  When the node has no pending changed-parameter set,
    [ExecReScanBitmapAnd] does not consult [UpdateChangedParamSet] at all:
    its outcome is the same whatever that function would do, and every
    child is either rescanned (if its own pending set is NULL) or left
    exactly as it was. *)
Theorem rescan_without_pending_set_skips_the_merge
    (Update Update' : PlanState → Bitmapset → PlanState)
    (ReScan : PlanState → PlanState) (node : BitmapAndState) :
  ps_chgParam node = None →
  ExecReScanBitmapAnd Update ReScan node = ExecReScanBitmapAnd Update' ReScan node
  ∧ (ExecReScanBitmapAnd Update ReScan node).1
    = (λ c, match chgParam c with None => ReScan c | Some _ => c end) <$> bitmapplans node.
Proof.
  intros Hnone. split.
  - unfold ExecReScanBitmapAnd.
    generalize (seq 0 (nplans node)). generalize (bitmapplans node, @nil nat).
    intros st idx. revert st. induction idx as [|i idx IH]; intros st; [done|].
    simpl. rewrite <- IH. f_equal.
    unfold rescan_step, signal_chgParam. by rewrite Hnone.
  - destruct (rescan_steps Update ReScan node (bitmapplans node) [] [])
      as (idx & Heq & _).
    unfold ExecReScanBitmapAnd, nplans. simpl in Heq. rewrite Heq. simpl.
    apply list_fmap_ext. intros _ c _. unfold signal_chgParam. by rewrite Hnone.
Qed.

(** ** The examples *)

Lemma demo_filter_plain p m tids : demo_filter (plain p) m tids = tids.
Proof. done. Qed.

Lemma demo_plain_produces tbl p tids :
  tbl p = Some tids → produces (demo_exec tbl) (plain p) tids.
Proof.
  intros Htbl m. exists (plain p), (fresh (dom (bitmaps m))). split.
  - apply not_elem_of_dom, is_fresh.
  - unfold demo_exec. simpl. by rewrite Htbl.
Qed.

Lemma demo_returns_new_bitmap tbl c :
  is_Some (tbl (plan c)) → returns_new_bitmap (demo_exec tbl) c.
Proof.
  intros [tids Htbl] m.
  exists c, (fresh (dom (bitmaps m))), (demo_filter c m tids). split.
  - apply not_elem_of_dom, is_fresh.
  - unfold demo_exec. by rewrite Htbl.
Qed.


(** Example for C5: the probe in the middle of three children. *)
Lemma reorder_pass_moves_probe_last_example :
  last (plans (start_state demo_VA_AM_OID
                 (demo_node None [plain 1; probe 4; plain 2]) demo_mem)) = Some (probe 4)
  ∧ plans (start_state demo_VA_AM_OID
             (demo_node None [plain 1; plain 2; probe 4]) demo_mem)
    = plans (start_state demo_VA_AM_OID
               (demo_node None [plain 1; probe 4; plain 2]) demo_mem).
Proof.
  destruct (reorder_pass_moves_probe_last demo_VA_AM_OID 64%Z (demo_exec demo_tbl)
              (demo_node None [plain 1; probe 4; plain 2]) demo_mem
              [plain 1] (probe 4) [plain 2])
    as (others & _ & _ & Hlast & _ & _ & Hagain).
  - reflexivity.
  - repeat constructor.
  - reflexivity.
  - split; [exact Hlast|].
    apply (Hagain (demo_node None [plain 1; plain 2; probe 4]) demo_mem). reflexivity.
Defined.

(** Example for C4: the probe changes places with the last child. *)
Lemma reorder_pass_exchanges_probe_and_last_example :
  reorder_pass demo_VA_AM_OID [plain 1; probe 4; plain 2; plain 3]
  = [plain 1; plain 3; plain 2; probe 4].
Proof.
  apply (reorder_pass_exchanges_probe_and_last demo_VA_AM_OID
           [plain 1] (probe 4) [plain 2] (plain 3)).
  - repeat constructor.
  - reflexivity.
Defined.

(** C4, as stated, fails: with the probe first of three children, the two
    ordinary children come out in the opposite order, not in the order
    they had. *)
Lemma reorder_pass_is_not_stable :
  reorder_pass demo_VA_AM_OID [probe 4; plain 1; plain 2] = [plain 2; plain 1; probe 4]
  ∧ reorder_pass demo_VA_AM_OID [probe 4; plain 1; plain 2]
    ≠ filter (λ c, is_ADAM_scan demo_VA_AM_OID c = false) [probe 4; plain 1; plain 2]
      ++ [probe 4].
Proof. split; [reflexivity|]. vm_compute. discriminate. Qed.

(** Example for C8: the node has a pending set; the first child depends on
    the parameters and is left for later, the second does not and is
    rescanned at once. *)
Lemma rescan_example :
  (ExecReScanBitmapAnd demo_UpdateChangedParamSet demo_ExecReScan demo_rescan_node).1 !! 1
    = Some (demo_ExecReScan (plain 2))
  ∧ 1 ∈ (ExecReScanBitmapAnd demo_UpdateChangedParamSet demo_ExecReScan demo_rescan_node).2
  ∧ (ExecReScanBitmapAnd demo_UpdateChangedParamSet demo_ExecReScan demo_rescan_node).1 !! 0
    = Some (set_chgParam (Some {[7]}) (plain 1))
  ∧ 0 ∉ (ExecReScanBitmapAnd demo_UpdateChangedParamSet demo_ExecReScan demo_rescan_node).2.
Proof.
  destruct (rescan_signals_then_rescans_idle_children
              demo_UpdateChangedParamSet demo_ExecReScan demo_rescan_node 1 (plain 2) eq_refl)
    as (_ & Hidle & _).
  destruct (rescan_signals_then_rescans_idle_children
              demo_UpdateChangedParamSet demo_ExecReScan demo_rescan_node 0 (plain 1) eq_refl)
    as (_ & _ & Hbusy).
  destruct (Hidle eq_refl) as [H1 H2].
  destruct Hbusy as [H3 H4]; [discriminate|].
  split_and!; [exact H1|exact H2| |exact H4].
  rewrite H3. vm_compute. reflexivity.
Defined.

(** Example for C2, scenario 1 of the specification: {1,3,5,7} and
    {3,5,9}. *)
Lemma and_of_two_plain_children_example :
  ∃ r s' A,
    MultiExecBitmapAnd demo_VA_AM_OID 64%Z (demo_exec demo_tbl)
      (demo_node None [plain 1; plain 2]) demo_mem = (Ok r, s')
    ∧ bitmaps (mem s') !! r = Some A
    ∧ ∀ x, x ∈ A ↔ Forall (λ tids : gset ItemPointer, x ∈ tids)
                      [{[1; 3; 5; 7]}%Z; {[3; 5; 9]}%Z].
Proof.
  apply (and_of_plain_children_is_their_intersection demo_VA_AM_OID 64%Z
           (demo_exec demo_tbl) (demo_node None [plain 1; plain 2]) demo_mem).
  - discriminate.
  - repeat constructor; by apply demo_plain_produces.
Defined.

(** Example for C3, scenario 2 of the specification: {1,3,5,7}, {} and
    {3,5,9}; the result is empty after the second child and the third is
    not run. *)
Lemma empty_result_ends_the_scan_example :
  ∃ r s',
    MultiExecBitmapAnd demo_VA_AM_OID 64%Z (demo_exec demo_tbl)
      (demo_node None [plain 1; plain 3; plain 2]) demo_mem = (Ok r, s')
    ∧ bitmaps (mem s') !! r = Some ∅
    ∧ executed s' = [0; 1]
    ∧ 2 ∉ executed s'.
Proof.
  set (node := demo_node None [plain 1; plain 3; plain 2]).
  set (s1 := (and_step demo_VA_AM_OID 64%Z (demo_exec demo_tbl) node 0 None
                (start_state demo_VA_AM_OID node demo_mem)).2).
  set (s2 := (and_step demo_VA_AM_OID 64%Z (demo_exec demo_tbl) node 1 (Some 1%positive)
                s1).2).
  assert (H1 : loop_reaches demo_VA_AM_OID 64%Z (demo_exec demo_tbl) node
                 (start_state demo_VA_AM_OID node demo_mem) 1 (Some 1%positive) s1).
  { eapply reaches_next; [apply reaches_start|vm_compute; reflexivity..]. }
  exists 1%positive, s2.
  destruct (empty_result_ends_the_scan demo_VA_AM_OID 64%Z (demo_exec demo_tbl)
              node demo_mem 1 (Some 1%positive) s1 1%positive s2 H1)
    as (Hrun & Hempty & Hex & Hskip).
  - vm_compute. lia.
  - vm_compute. reflexivity.
  - vm_compute. reflexivity.
  - split_and!; [exact Hrun|exact Hempty|exact Hex|apply Hskip; lia].
Defined.

(** C7, as stated, fails in one point: initialization does not reject an
    empty child list.  It returns a node without children, and it is
    [execute] that then raises the zero-inputs error. *)
Lemma init_accepts_no_children :
  ExecInitBitmapAnd 4%Z 8%Z true demo_init {| adamPlanClause := None; plan_bitmapplans := [] |} 0%Z
  = Ok {| ps_plan := {| adamPlanClause := None; plan_bitmapplans := [] |};
          ps_chgParam := None; bitmapplans := []; limit := 0%Z |}
  ∧ (MultiExecBitmapAnd demo_VA_AM_OID 64%Z (demo_exec demo_tbl)
       {| ps_plan := {| adamPlanClause := None; plan_bitmapplans := [] |};
          ps_chgParam := None; bitmapplans := []; limit := 0%Z |} demo_mem).1
    = Err (ERROR "BitmapAnd doesn't support zero inputs").
Proof. split; reflexivity. Qed.

(** Example for C7 (amended): two ordinary children, the second of which
    returns NULL (plan 7 is not in the table). *)
Lemma zero_inputs_and_unrecognized_results_example :
  ∃ node,
    ExecInitBitmapAnd 4%Z 8%Z true demo_init
      {| adamPlanClause := None; plan_bitmapplans := [1; 7] |} 0%Z = Ok node
    ∧ bitmapplans node = [plain 1; plain 7]
    ∧ (MultiExecBitmapAnd demo_VA_AM_OID 64%Z (demo_exec demo_tbl) node demo_mem).1
      ≠ Err (ERROR "BitmapAnd doesn't support zero inputs")
    ∧ head (executed
              (MultiExecBitmapAnd demo_VA_AM_OID 64%Z (demo_exec demo_tbl) node demo_mem).2)
      = Some 0
    ∧ (MultiExecBitmapAnd demo_VA_AM_OID 64%Z (demo_exec demo_tbl) node demo_mem).1
      = Err (ERROR "unrecognized result from subplan").
Proof.
  destruct (zero_inputs_and_unrecognized_results demo_VA_AM_OID 64%Z 4%Z 8%Z true demo_init
              (demo_exec demo_tbl)
              {| adamPlanClause := None; plan_bitmapplans := [1; 7] |} 0%Z demo_mem eq_refl)
    as (node & Hinit & Hkids & Hzero & Hfirst & _ & Hbad).
  exists node. split_and!; [exact Hinit|exact Hkids| | |].
  - intros H. apply Hzero in H. discriminate H.
  - apply Hfirst; [discriminate|]. intros p Hp. discriminate Hp.
  - vm_compute in Hinit. injection Hinit as <-.
    set (node := {| ps_plan := {| adamPlanClause := None; plan_bitmapplans := [1; 7] |};
                    ps_chgParam := None; bitmapplans := [plain 1; plain 7];
                    limit := 0%Z |}) in *.
    set (s1 := (and_step demo_VA_AM_OID 64%Z (demo_exec demo_tbl) node 0 None
                  (start_state demo_VA_AM_OID node demo_mem)).2).
    apply (Hbad 1 (Some 1%positive) s1 (Some 1%positive) false s1
                (plain 7) (plain 7) (mem s1) NULL).
    + eapply reaches_next; [apply reaches_start|vm_compute; reflexivity..].
    + vm_compute. lia.
    + vm_compute. reflexivity.
    + vm_compute. reflexivity.
    + vm_compute. reflexivity.
    + exact I.
Defined.

(** C9, as stated, fails: two similarity probes among the children raise
    no error, neither at initialization nor when the node is executed; the
    pass reorders them without a word, here leaving one of the probes in
    the first slot. *)
Lemma two_probes_run_without_error :
  ExecInitBitmapAnd 4%Z 8%Z true demo_init
    {| adamPlanClause := Some 1%positive; plan_bitmapplans := [4; 6; 5] |} 0%Z
  = Ok {| ps_plan := {| adamPlanClause := Some 1%positive; plan_bitmapplans := [4; 6; 5] |};
          ps_chgParam := None; bitmapplans := [probe 4; plain 6; probe 5]; limit := 0%Z |}
  ∧ reorder_pass demo_VA_AM_OID [probe 4; plain 6; probe 5] = [probe 5; plain 6; probe 4]
  ∧ (MultiExecBitmapAnd demo_VA_AM_OID 64%Z (demo_exec demo_tbl)
       {| ps_plan := {| adamPlanClause := Some 1%positive; plan_bitmapplans := [4; 6; 5] |};
          ps_chgParam := None; bitmapplans := [probe 4; plain 6; probe 5]; limit := 0%Z |}
       demo_mem).1 = Ok 3%positive
  ∧ executed
      (MultiExecBitmapAnd demo_VA_AM_OID 64%Z (demo_exec demo_tbl)
         {| ps_plan := {| adamPlanClause := Some 1%positive; plan_bitmapplans := [4; 6; 5] |};
            ps_chgParam := None; bitmapplans := [probe 4; plain 6; probe 5]; limit := 0%Z |}
         demo_mem).2 = [0; 1; 2].
Proof. split_and!; vm_compute; reflexivity. Qed.

(** Example for C9 (amended): three children, two of them probes. *)
Lemma several_probes_are_not_rejected_example :
  reorder_pass demo_VA_AM_OID [probe 4; plain 6; probe 5] ≡ₚ [probe 4; plain 6; probe 5]
  ∧ ∃ r s',
      MultiExecBitmapAnd demo_VA_AM_OID 64%Z (demo_exec demo_tbl_total)
        (demo_node (Some 1%positive) [probe 4; plain 6; probe 5]) demo_mem = (Ok r, s')
      ∧ is_Some (bitmaps (mem s') !! r).
Proof.
  apply (several_probes_are_not_rejected demo_VA_AM_OID 64%Z (demo_exec demo_tbl_total)
           (demo_node (Some 1%positive) [probe 4; plain 6; probe 5]) demo_mem).
  - intros c. apply demo_returns_new_bitmap. unfold demo_tbl_total. eexists. reflexivity.
  - discriminate.
  - intros p Hp. injection Hp as <-. eexists. reflexivity.
Defined.

(** C1, as stated, fails when the other child leaves an empty result: the
    loop stops before it comes to the probe.  The probe is not run and
    not configured, the clause keeps the values it had (not the node's
    limit of 10, and [check_tid] false), and [execute] returns the empty
    result of the other child, not the output of the probe. *)
Lemma probe_is_skipped_after_an_empty_result :
  limit (demo_node (Some 1%positive) [probe 4; plain 3]) = 10%Z
  ∧ (MultiExecBitmapAnd demo_VA_AM_OID 64%Z (demo_exec demo_tbl)
       (demo_node (Some 1%positive) [probe 4; plain 3]) demo_mem).1 = Ok 1%positive
  ∧ bitmaps (mem (MultiExecBitmapAnd demo_VA_AM_OID 64%Z (demo_exec demo_tbl)
       (demo_node (Some 1%positive) [probe 4; plain 3]) demo_mem).2) !! 1%positive = Some ∅
  ∧ executed (MultiExecBitmapAnd demo_VA_AM_OID 64%Z (demo_exec demo_tbl)
       (demo_node (Some 1%positive) [probe 4; plain 3]) demo_mem).2 = [0]
  ∧ plans (MultiExecBitmapAnd demo_VA_AM_OID 64%Z (demo_exec demo_tbl)
       (demo_node (Some 1%positive) [probe 4; plain 3]) demo_mem).2 = [plain 3; probe 4]
  ∧ clauses (mem (MultiExecBitmapAnd demo_VA_AM_OID 64%Z (demo_exec demo_tbl)
       (demo_node (Some 1%positive) [probe 4; plain 3]) demo_mem).2) !! 1%positive
    = Some {| check_tid := false; nn_limit := 0%Z |}.
Proof. split_and!; vm_compute; reflexivity. Qed.

(** Example for C1 (amended).  First scenario 3 of the specification: the
    probe and an ordinary child that produces {2,4,6}, with limit 10; the
    probe's answer is returned and the clause ends with the limit and the
    check set.  Then the probe beside a child that produces the empty set:
    the probe is not run. *)
Lemma probe_output_replaces_the_accumulator_example :
  (∃ a s',
     MultiExecBitmapAnd demo_VA_AM_OID 64%Z (demo_exec demo_tbl)
       (demo_node (Some 1%positive) [probe 4; plain 6]) demo_mem = (Ok a, s')
     ∧ clauses (mem s') !! 1%positive = Some {| check_tid := true; nn_limit := 10%Z |}
     ∧ executed s' = [0; 1])
  ∧ (∃ r s',
       MultiExecBitmapAnd demo_VA_AM_OID 64%Z (demo_exec demo_tbl)
         (demo_node (Some 1%positive) [probe 4; plain 3]) demo_mem = (Ok r, s')
       ∧ bitmaps (mem s') = <[r := ∅]> (bitmaps demo_mem)
       ∧ clauses (mem s') = clauses demo_mem
       ∧ last (plans s') = Some (probe 4)
       ∧ 1 ∉ executed s').
Proof.
  split.
  - destruct (probe_output_replaces_the_accumulator demo_VA_AM_OID 64%Z (demo_exec demo_tbl)
                (demo_node (Some 1%positive) [probe 4; plain 6]) demo_mem
                [] (probe 4) [plain 6] 1%positive {| check_tid := false; nn_limit := 0%Z |}
                demo_out)
      as (r & A & _ & HA & Hrun & _).
    + reflexivity.
    + discriminate.
    + repeat constructor. by apply demo_plain_produces.
    + reflexivity.
    + reflexivity.
    + reflexivity.
    + assert (HAne : A ≠ ∅).
      { intros HA0. assert (H2 : 2%Z ∈ A).
        { apply HA. constructor; [vm_compute; reflexivity|constructor]. }
        rewrite HA0 in H2. exact (not_elem_of_empty _ H2). }
      edestruct (Hrun HAne) as (s' & Hexec & Hmem & _ & Hex).
      * unfold demo_exec. simpl. reflexivity.
      * simpl. rewrite lookup_insert_eq. eexists. reflexivity.
      * eexists. exists s'. split_and!; [exact Hexec| |exact Hex].
        rewrite Hmem. simpl. apply lookup_insert_eq.
  - destruct (probe_output_replaces_the_accumulator demo_VA_AM_OID 64%Z (demo_exec demo_tbl)
                (demo_node (Some 1%positive) [probe 4; plain 3]) demo_mem
                [] (probe 4) [plain 3] 1%positive {| check_tid := false; nn_limit := 0%Z |}
                demo_out)
      as (r & A & _ & HA & _ & Hstop).
    + reflexivity.
    + discriminate.
    + repeat constructor. by apply demo_plain_produces.
    + reflexivity.
    + reflexivity.
    + reflexivity.
    + assert (HA0 : A = ∅).
      { apply set_eq. intros y. rewrite HA. split.
        - intros Hy. inversion Hy as [|?? Hy1 _]. exact Hy1.
        - intros Hy. exfalso. exact (not_elem_of_empty _ Hy). }
      destruct (Hstop HA0) as (s' & Hexec & Hbm & Hcl & Hlast & Hnot).
      exists r, s'. split_and!; [exact Hexec|exact Hbm|exact Hcl|exact Hlast|exact Hnot].
Defined.


(** C10, as stated, fails: what [execute] returns does depend on what the
    probe does.  A probe that adds its tuples to the sink it was given and
    returns them in a bitmap of its own makes [execute] return all four
    of its tuples, not the empty set; and a probe that fills the sink and
    hands the sink itself back makes [execute] intersect the result with
    itself, free it, and then test the freed bitmap for emptiness, an
    invalid access. *)
Lemma probe_decides_the_result_without_clause :
  (MultiExecBitmapAnd demo_VA_AM_OID 64%Z (demo_exec_fill_sink demo_tbl)
     (demo_node None [probe 4]) demo_mem).1 = Ok 1%positive
  ∧ bitmaps (mem (MultiExecBitmapAnd demo_VA_AM_OID 64%Z (demo_exec_fill_sink demo_tbl)
       (demo_node None [probe 4]) demo_mem).2) !! 1%positive
    = Some {[2; 4; 6; 8]}%Z
  ∧ (MultiExecBitmapAnd demo_VA_AM_OID 64%Z (demo_exec_into_sink demo_tbl)
       (demo_node None [probe 4]) demo_mem).1 = Err SEGV.
Proof. split_and!; vm_compute; reflexivity. Qed.

(** Example for C10 (amended): the probe alone, in a plan without a scan
    clause; the probe's four tuples are lost. *)
Lemma probe_without_clause_yields_empty_example :
  ∃ c' s',
    MultiExecBitmapAnd demo_VA_AM_OID 64%Z (demo_exec demo_tbl)
      (demo_node None [probe 4]) demo_mem = (Ok 1%positive, s')
    ∧ bitmaps (mem s') !! 1%positive = Some ∅
    ∧ plans s' = [c']
    ∧ executed s' = [0]
    ∧ bitmaps (mem s') = <[1%positive := ∅]> (bitmaps demo_mem).
Proof.
  destruct (probe_without_clause_yields_empty demo_VA_AM_OID 64%Z (demo_exec demo_tbl)
              (demo_node None [probe 4]) demo_mem (probe 4) [])
    as (_ & c' & a & tids & s' & _ & Hexec & Hempty & Hplans & Hex & Hstore & _).
  - reflexivity.
  - reflexivity.
  - reflexivity.
  - apply demo_returns_new_bitmap. eexists. reflexivity.
  - exists c', s'. split_and!; [exact Hexec|exact Hempty|exact Hplans|exact Hex|exact Hstore].
Defined.

(** With a scan clause the scan that hands its sink back is served well,
    since its answer replaces the result and nothing is freed. *)
Lemma sink_handed_back_by_the_probe :
  (MultiExecBitmapAnd demo_VA_AM_OID 64%Z (demo_exec_into_sink demo_tbl)
     (demo_node (Some 1%positive) [probe 4]) demo_mem).1 = Ok 1%positive
  ∧ bitmaps (mem (MultiExecBitmapAnd demo_VA_AM_OID 64%Z (demo_exec_into_sink demo_tbl)
       (demo_node (Some 1%positive) [probe 4]) demo_mem).2) !! 1%positive
    = Some {[2; 4; 6; 8]}%Z.
Proof. split_and!; vm_compute; reflexivity. Qed.

(** ** Examples for the further properties *)


(** Example for X3: a probe in the second slot and another in the last. *)
Lemma reorder_pass_exchanges_with_any_last_child_example :
  reorder_pass demo_VA_AM_OID [plain 1; probe 4; plain 2; probe 5]
  = [plain 1; probe 5; plain 2; probe 4]
  ∧ reorder_pass demo_VA_AM_OID
      (reorder_pass demo_VA_AM_OID [plain 1; probe 4; plain 2; probe 5])
    = [plain 1; probe 4; plain 2; probe 5].
Proof.
  destruct (reorder_pass_exchanges_with_any_last_child demo_VA_AM_OID
              [plain 1] (probe 4) [plain 2] (probe 5)) as [Hone Htwo].
  - repeat constructor.
  - reflexivity.
  - split; [exact Hone|exact (Htwo eq_refl)].
Defined.

(** Example for X5: {1,3,5,7} and {3,5,9} leave {3,5}, and both children
    were run. *)
Lemma nonempty_result_means_all_children_ran_example :
  executed (MultiExecBitmapAnd demo_VA_AM_OID 64%Z (demo_exec demo_tbl)
              (demo_node None [plain 1; plain 2]) demo_mem).2 = [0; 1].
Proof.
  apply (nonempty_result_means_all_children_ran demo_VA_AM_OID 64%Z (demo_exec demo_tbl)
           (demo_node None [plain 1; plain 2]) demo_mem 1%positive _ {[3; 5]}%Z).
  - vm_compute. reflexivity.
  - vm_compute. reflexivity.
  - vm_compute. discriminate.
Defined.

(** Example for X6: the second child returns NULL (plan 7 is not in the
    table). *)
Lemma unrecognized_error_comes_from_a_child_example :
  ∃ i s1 subnode subnode' m' subresult,
    i < 2
    ∧ plans s1 !! i = Some subnode
    ∧ demo_exec demo_tbl subnode (mem s1) = (subnode', m', subresult)
    ∧ unrecognized subresult.
Proof.
  destruct (unrecognized_error_comes_from_a_child demo_VA_AM_OID 64%Z (demo_exec demo_tbl)
              (demo_node None [plain 1; plain 7]) demo_mem
              (MultiExecBitmapAnd demo_VA_AM_OID 64%Z (demo_exec demo_tbl)
                 (demo_node None [plain 1; plain 7]) demo_mem).2)
    as (i & _ & _ & _ & _ & s1 & subnode & subnode' & m' & subresult
        & _ & Hi & _ & Hsub & Hrun & Hbad & _).
  - vm_compute. reflexivity.
  - exists i, s1, subnode, subnode', m', subresult.
    split_and!; [exact Hi|exact Hsub|exact Hrun|exact Hbad].
Defined.

(** Example for X7: two ordinary children and an empty store. *)
Lemma plain_children_leave_only_the_result_example :
  ∃ r s' A,
    MultiExecBitmapAnd demo_VA_AM_OID 64%Z (demo_exec demo_tbl)
      (demo_node None [plain 1; plain 2]) demo_mem = (Ok r, s')
    ∧ bitmaps demo_mem !! r = None
    ∧ bitmaps (mem s') = <[r := A]> (bitmaps demo_mem)
    ∧ clauses (mem s') = clauses demo_mem.
Proof.
  apply (plain_children_leave_only_the_result demo_VA_AM_OID 64%Z (demo_exec demo_tbl)
           (demo_node None [plain 1; plain 2]) demo_mem [{[1; 3; 5; 7]}%Z; {[3; 5; 9]}%Z]).
  - discriminate.
  - repeat constructor; by apply demo_plain_produces.
Defined.

(** Example for X8: the children of scenario 2 in two orders; in the
    first the scan stops after the empty set, in the second it runs all
    three children. *)
Lemma plain_children_in_any_order_example :
  ∃ r1 s1 r2 s2 A,
    MultiExecBitmapAnd demo_VA_AM_OID 64%Z (demo_exec demo_tbl)
      (demo_node None [plain 3; plain 1; plain 2]) demo_mem = (Ok r1, s1)
    ∧ MultiExecBitmapAnd demo_VA_AM_OID 64%Z (demo_exec demo_tbl)
        (demo_node None [plain 1; plain 2; plain 3]) demo_mem = (Ok r2, s2)
    ∧ bitmaps (mem s1) !! r1 = Some A
    ∧ bitmaps (mem s2) !! r2 = Some A.
Proof.
  apply (plain_children_in_any_order demo_VA_AM_OID 64%Z (demo_exec demo_tbl)
           (demo_node None [plain 3; plain 1; plain 2])
           (demo_node None [plain 1; plain 2; plain 3]) demo_mem demo_mem demo_out).
  - discriminate.
  - simpl. apply (Permutation_cons_append [plain 1; plain 2] (plain 3)).
  - repeat constructor; by apply demo_plain_produces.
Defined.


(** Example for X10, scenario 3 of the specification: the result {2,4,6}
    of the ordinary child stays in the store beside the probe's answer. *)
Lemma substitution_keeps_the_old_result_allocated_example :
  ∃ r A a tids s',
    MultiExecBitmapAnd demo_VA_AM_OID 64%Z (demo_exec demo_tbl)
      (demo_node (Some 1%positive) [probe 4; plain 6]) demo_mem = (Ok a, s')
    ∧ a ≠ r
    ∧ bitmaps (mem s') = <[a := tids]> (<[r := A]> (bitmaps demo_mem))
    ∧ (2%Z ∈ A ∧ 8%Z ∉ A).
Proof.
  destruct (substitution_keeps_the_old_result_allocated demo_VA_AM_OID 64%Z
              (demo_exec demo_tbl)
              (demo_node (Some 1%positive) [probe 4; plain 6]) demo_mem
              [] (probe 4) [plain 6] 1%positive {| check_tid := false; nn_limit := 0%Z |}
              demo_out 2%Z)
    as (r & A & a & tids & s' & Hexec & Hne & _ & _ & Hbm & HA).
  - reflexivity.
  - discriminate.
  - repeat constructor. by apply demo_plain_produces.
  - reflexivity.
  - intros sink cl. apply demo_returns_new_bitmap. eexists. reflexivity.
  - reflexivity.
  - reflexivity.
  - constructor; [vm_compute; reflexivity|constructor].
  - exists r, A, a, tids, s'. split_and!; [exact Hexec|exact Hne|exact Hbm| |].
    + apply HA. constructor; [vm_compute; reflexivity|constructor].
    + intros H8. apply HA in H8. inversion H8 as [|?? H8' _].
      vm_compute in H8'. discriminate H8'.
Defined.

(** Example for X12: a node without a pending set; whatever the merge
    function would do, both children are rescanned. *)
Lemma rescan_without_pending_set_skips_the_merge_example :
  ExecReScanBitmapAnd demo_UpdateChangedParamSet demo_ExecReScan
    (demo_node None [plain 1; plain 2])
  = ExecReScanBitmapAnd (λ c _, c) demo_ExecReScan (demo_node None [plain 1; plain 2])
  ∧ (ExecReScanBitmapAnd demo_UpdateChangedParamSet demo_ExecReScan
       (demo_node None [plain 1; plain 2])).1
    = [demo_ExecReScan (plain 1); demo_ExecReScan (plain 2)].
Proof.
  apply (rescan_without_pending_set_skips_the_merge demo_UpdateChangedParamSet (λ c _, c)
           demo_ExecReScan (demo_node None [plain 1; plain 2]) eq_refl).
Defined.

(** Example for X11: the node of scenario 3 in a plan without a scan
    clause; {2,4,6} is narrowed by the probe's {2,4,6,8}. *)
Lemma probe_without_clause_narrows_the_result_example :
  ∃ r s',
    MultiExecBitmapAnd demo_VA_AM_OID 64%Z (demo_exec demo_tbl)
      (demo_node None [probe 4; plain 6]) demo_mem = (Ok r, s')
    ∧ clauses (mem s') = clauses demo_mem
    ∧ executed s' = [0; 1].
Proof.
  destruct (probe_without_clause_narrows_the_result demo_VA_AM_OID 64%Z
              (demo_exec demo_tbl) (demo_node None [probe 4; plain 6]) demo_mem
              [] (probe 4) [plain 6] demo_out 2%Z)
    as (r & A & c' & a & tids & s' & _ & Hexec & _ & _ & Hcl & _ & Hex).
  - reflexivity.
  - discriminate.
  - repeat constructor. by apply demo_plain_produces.
  - reflexivity.
  - intros sink cl. apply demo_returns_new_bitmap. eexists. reflexivity.
  - reflexivity.
  - constructor; [vm_compute; reflexivity|constructor].
  - exists r, s'. split_and!; [exact Hexec|exact Hcl|exact Hex].
Defined.

(** Example for X13: a B-tree scan, then a node that is not an index scan
    though its relation uses the VA access method, then a scan without a
    relation descriptor; the probe is last. *)
Lemma pass_moves_only_VA_index_scans_example :
  reorder_pass demo_VA_AM_OID
    [plain 1;
     {| type := T_BitmapOrState; plan := 2; chgParam := None; biss_result := None;
        biss_RelationDesc := Some {| relam := demo_VA_AM_OID |}; adamScanClause := None |};
     {| type := T_BitmapIndexScanState; plan := 6; chgParam := None; biss_result := None;
        biss_RelationDesc := None; adamScanClause := None |};
     probe 4]
  = [plain 1;
     {| type := T_BitmapOrState; plan := 2; chgParam := None; biss_result := None;
        biss_RelationDesc := Some {| relam := demo_VA_AM_OID |}; adamScanClause := None |};
     {| type := T_BitmapIndexScanState; plan := 6; chgParam := None; biss_result := None;
        biss_RelationDesc := None; adamScanClause := None |};
     probe 4].
Proof.
  refine (proj1 (pass_moves_only_VA_index_scans demo_VA_AM_OID
           (demo_node None
              [plain 1;
               {| type := T_BitmapOrState; plan := 2; chgParam := None; biss_result := None;
                  biss_RelationDesc := Some {| relam := demo_VA_AM_OID |};
                  adamScanClause := None |};
               {| type := T_BitmapIndexScanState; plan := 6; chgParam := None;
                  biss_result := None; biss_RelationDesc := None; adamScanClause := None |};
               probe 4])
           demo_mem
           [plain 1;
            {| type := T_BitmapOrState; plan := 2; chgParam := None; biss_result := None;
               biss_RelationDesc := Some {| relam := demo_VA_AM_OID |};
               adamScanClause := None |};
            {| type := T_BitmapIndexScanState; plan := 6; chgParam := None;
               biss_result := None; biss_RelationDesc := None; adamScanClause := None |}]
           (probe 4) eq_refl _)).
  constructor; [|constructor; [|constructor; [|constructor]]].
  - right. right. exists {| relam := demo_BTREE_AM_OID |}. split; [reflexivity|discriminate].
  - left. discriminate.
  - right. left. reflexivity.
Defined.
